(** * Tunnelfy: the sharded route table and the SSH forward manager

    A shallow embedding of [internal/proxy/proxy.go] and
    [internal/ssh/server.go].  Go strings are byte strings ([string]),
    [uint32]/[uint8]/[int] values are [Z] with the wrap-around written out,
    request payloads are [list byte], Go maps and [sync.Map] are [gmap]s.
    The Go standard library is not part of the repository: [url.Parse] is a
    section variable, and the answer of the operating system to
    [net.Listen] and the reading of the clock are inputs of the handlers.
    Calls to [log.Printf] are left out: no state depends on them. *)

From Stdlib Require Import ZArith Ascii String.
From Stdlib.Strings Require Import Byte.
From stdpp Require Import gmap strings list fin_maps pretty.

Set Implicit Arguments.

Local Open Scope string_scope.
Local Open Scope Z_scope.

(** ** Go built-ins used by the two packages *)

(** Conversion to [uint32] and to [uint8]. *)
Definition wrap32 (z : Z) : Z := z mod 2 ^ 32.
Definition wrap8 (z : Z) : Z := z mod 2 ^ 8.

(** [uint32(key[i])]: the numeric value of one byte of a string. *)
Definition byte_of_char (c : ascii) : Z := Z.of_N (N_of_ascii c).

(** [strings.HasPrefix(s, p)]. *)
Definition HasPrefix (s p : string) : bool := String.prefix p s.

(** [strings.HasSuffix(s, suffix)]:
    [len(s) >= len(suffix) && s[len(s)-len(suffix):] == suffix]. *)
Definition HasSuffix (s suffix : string) : bool :=
  (String.length suffix <=? String.length s)%nat &&
  String.eqb
    (String.substring (String.length s - String.length suffix)
                      (String.length suffix) s)
    suffix.

(** [strings.IndexByte(s, c)]: index of the first [c] in [s], or [-1]. *)
Fixpoint IndexByte (s : string) (c : ascii) : Z :=
  match s with
  | EmptyString => -1
  | String a rest =>
      if Ascii.eqb a c then 0
      else let i := IndexByte rest c in
           if i <? 0 then -1 else i + 1
  end.

(** [fmt.Sprintf("%d", n)]. *)
Definition Sprintf_d (n : Z) : string := pretty n.

(** [binary.BigEndian.Uint32(b)] on a slice of (at least) four bytes. *)
Definition byteZ (b : byte) : Z := Z.of_N (Byte.to_N b).

Definition BigEndian_Uint32 (b : list byte) : Z :=
  match b with
  | b0 :: b1 :: b2 :: b3 :: _ =>
      Z.lor (Z.lor (Z.lor (byteZ b3) (Z.shiftl (byteZ b2) 8))
                   (Z.shiftl (byteZ b1) 16))
            (Z.shiftl (byteZ b0) 24)
  | _ => 0
  end.

(** [byte(v)]: the low eight bits of [v] as a byte. *)
Definition byte_of_Z (v : Z) : byte :=
  match Byte.of_N (Z.to_N (wrap8 v)) with
  | Some b => b
  | None => x00
  end.

(** [binary.BigEndian.PutUint32(make([]byte, 4), v)]. *)
Definition BigEndian_PutUint32 (v : Z) : list byte :=
  [ byte_of_Z (Z.shiftr v 24); byte_of_Z (Z.shiftr v 16);
    byte_of_Z (Z.shiftr v 8); byte_of_Z v ].

(** A stand-in for [url.Parse] used to run the model on concrete inputs:
    it keeps the raw text and rejects a blank in it, as [url.Parse] rejects
    a blank in the host part. *)
Definition sample_Parse (raw : string) : option string :=
  if IndexByte raw " "%char <? 0 then Some raw else None.

Section Tunnelfy.

(** [url.URL] and [url.Parse]. *)
Variable URL : Type.
Variable url_Parse : string → option URL.

(** ** Package proxy *)

Definition routeShards : Z := 256.

(** [httputil.ReverseProxy] as [AddRoute] builds it: the director rewrites
    every request to the scheme and host of [upstream]; the error handler
    answers [ErrorStatus]. *)
Record ReverseProxy := {
  upstream : URL;
  FlushInterval_ms : Z;
  ErrorStatus : Z;
  ErrorBody : string
}.

Record UpstreamEntry := {
  TargetURL : URL;
  Proxy : ReverseProxy;
  CreatedAt : Z
}.

(** [shard.m]; the lock around it orders the accesses and holds no data. *)
Definition shard : Type := gmap string UpstreamEntry.

Record ShardedRouteManager := {
  shards : list shard;
  mgr_logRequests : bool
}.

Definition NewShardedRouteManager (logRequests : bool) : ShardedRouteManager :=
  {| shards := replicate (Z.to_nat routeShards) (∅ : shard);
     mgr_logRequests := logRequests |}.

(** The loop of [shardIdx]: [h = h*16777619 ^ uint32(key[i])]. *)
Fixpoint shardIdx_loop (key : string) (h : Z) : Z :=
  match key with
  | EmptyString => h
  | String c rest =>
      shardIdx_loop rest (Z.lxor (wrap32 (h * 16777619)) (byte_of_char c))
  end.

Definition shardIdx (key : string) : Z :=
  wrap8 (shardIdx_loop key 0 mod routeShards).

(** The [raw] string of [AddRoute]. *)
Definition normalize (target : string) : string :=
  if HasPrefix target "http://" || HasPrefix target "https://"
  then target
  else "http://" +:+ target.

Definition new_entry (now : Z) (u : URL) : UpstreamEntry :=
  {| TargetURL := u;
     Proxy := {| upstream := u; FlushInterval_ms := 10;
                 ErrorStatus := 502; ErrorBody := "upstream gateway error" |};
     CreatedAt := now |}.

(** [AddRoute]: [None] is the returned parse error (the table is left as it
    was), [Some m'] is a [nil] error with the table after the store. *)
Definition AddRoute (now : Z) (host target : string)
    (m : ShardedRouteManager) : option ShardedRouteManager :=
  match url_Parse (normalize target) with
  | None => None
  | Some u =>
      let idx := shardIdx host in
      Some {| shards := alter (λ s : shard, <[host := new_entry now u]> s)
                              (Z.to_nat idx) (shards m);
              mgr_logRequests := mgr_logRequests m |}
  end.

Definition RemoveRoute (host : string) (m : ShardedRouteManager)
    : ShardedRouteManager :=
  let idx := shardIdx host in
  {| shards := alter (λ s : shard, delete host s) (Z.to_nat idx) (shards m);
     mgr_logRequests := mgr_logRequests m |}.

(** [GetEntry]: [Some e] is [(e, true)], [None] is [(nil, false)]. *)
Definition GetEntry (host : string) (m : ShardedRouteManager)
    : option UpstreamEntry :=
  match shards m !! Z.to_nat (shardIdx host) with
  | Some s => s !! host
  | None => None
  end.

(** *** The HTTP front door *)

(** What the handler does with the response writer. *)
Inductive Response :=
| http_Error (body : string) (code : Z)
| http_NotFound
| ServeHTTP (entry : UpstreamEntry) (X_Tunnel_User : option string).

Definition StatusBadRequest : Z := 400.
Definition StatusNotFound : Z := 404.

(** The status line of a response the handler writes itself. *)
Definition status_of (r : Response) : option Z :=
  match r with
  | http_Error _ code => Some code
  | http_NotFound => Some StatusNotFound
  | ServeHTTP _ _ => None
  end.

(** [if i := strings.IndexByte(host, c); i >= 0 { host = host[:i] }]. *)
Definition cut_at (c : ascii) (host : string) : string :=
  let i := IndexByte host c in
  if 0 <=? i then String.substring 0 (Z.to_nat i) host else host.

(** [FastProxyHandler(m, zone)] applied to a request whose [Host] is
    [r_Host].  The first component lists the keys passed to [GetEntry];
    [strings.Split(host, ".")[0]] is the part of [host] before its first
    dot. *)
Definition FastProxyHandler (m : ShardedRouteManager) (zone : string)
    (r_Host : string) : list string * Response :=
  let host := cut_at ":" r_Host in
  if negb (String.eqb zone EmptyString) && negb (HasSuffix host ("." +:+ zone))
  then ([], http_Error "invalid host" StatusBadRequest)
  else
    match GetEntry host m with
    | None => ([host], http_NotFound)
    | Some entry =>
        ([host],
         ServeHTTP entry
           (if mgr_logRequests m then Some (cut_at "." host) else None))
    end.

(** ** Package ssh *)

(** [parseForwardPort]: [None] is the returned error.  [int] has 64 bits on
    the platforms the server is built for, so [4 + addrLen + 4] does not
    wrap; [payload[a:b]] is [take (b - a) (drop a payload)]. *)
Definition parseForwardPort (payload : list byte) : option string :=
  if Z.of_nat (length payload) <? 4 then None
  else
    let addrLen := BigEndian_Uint32 (take 4 payload) in
    let expected := 4 + addrLen + 4 in
    if Z.of_nat (length payload) <? expected then None
    else
      let port :=
        BigEndian_Uint32 (take 4 (drop (Z.to_nat (4 + addrLen)) payload)) in
      Some (Sprintf_d port).

Record SSHServer := {
  manager : ShardedRouteManager;
  zone : string;
  activeTunnelM : gmap string string;
  logRequests : bool
}.

Definition NewSSHServer (zone : string) (manager : ShardedRouteManager)
    (logRequests : bool) : SSHServer :=
  {| manager := manager; zone := zone; activeTunnelM := ∅;
     logRequests := logRequests |}.

(** The loopback side of the operating system, as far as the server drives
    it: the ports that hold an open listener, and for each listener the
    arguments [(upstreamHost, upstreamPort)] of its acceptor goroutine. *)
Record Net := {
  listening : gset Z;
  acceptors : gmap Z (string * string)
}.

Record World := {
  server : SSHServer;
  net : Net
}.

Definition boot (zone : string) (logRequests : bool) : World :=
  {| server := NewSSHServer zone (NewShardedRouteManager logRequests)
                            logRequests;
     net := {| listening := ∅; acceptors := ∅ |} |}.

(** [ssh.Request]. *)
Record Request := {
  req_Type : string;
  req_Payload : list byte
}.

(** The answer of [net.Listen]: an error, or a listener whose address has
    the given port. *)
Inductive ListenResult :=
| ListenError
| Listening (port : Z).

(** Calls that leave the process, in the order the code makes them.
    [OpenChannel] is [sshConn.OpenChannel(name, data)]. *)
Inductive Call :=
| net_Listen (network address : string)
| Listener_Close (port : Z)
| Reply (ok : bool) (payload : list byte)
| go_acceptor (port : Z) (upstreamHost upstreamPort : string)
| net_Dial (network address : string)
| io_Copy (dst src : string)
| Conn_Close (conn : string)
| OpenChannel (name : string) (data : list byte).

Definition with_server (w : World) (s : SSHServer) : World :=
  {| server := s; net := net w |}.

(** The [tcpip-forward] case of the request loop. *)
Definition handle_forward (username : string) (payload : list byte)
    (os : ListenResult) (now : Z) (w : World) : World * list Call :=
  let s := server w in
  match parseForwardPort payload with
  | None => (w, [Reply false []])
  | Some requestedPortStr =>
      let listenAddr := "127.0.0.1:" +:+ requestedPortStr in
      match os with
      | ListenError => (w, [net_Listen "tcp" listenAddr; Reply false []])
      | Listening actualPort =>
          let opened := listening (net w) ∪ {[actualPort]} in
          let actualPortStr := Sprintf_d actualPort in
          let fullHost := username +:+ "." +:+ zone s in
          let routeTarget := "127.0.0.1:" +:+ Sprintf_d actualPort in
          match AddRoute now fullHost routeTarget (manager s) with
          | None =>
              ({| server := s;
                  net := {| listening := opened ∖ {[actualPort]};
                            acceptors := acceptors (net w) |} |},
               [net_Listen "tcp" listenAddr; Listener_Close actualPort;
                Reply false []])
          | Some m' =>
              let key := username +:+ ":" +:+ actualPortStr in
              ({| server := {| manager := m'; zone := zone s;
                               activeTunnelM :=
                                 <[key := fullHost]> (activeTunnelM s);
                               logRequests := logRequests s |};
                  net := {| listening := opened;
                            acceptors :=
                              <[actualPort := ("localhost", "3000")]>
                                (acceptors (net w)) |} |},
               [net_Listen "tcp" listenAddr;
                Reply true (BigEndian_PutUint32 (wrap32 actualPort));
                go_acceptor actualPort "localhost" "3000"])
          end
      end
  end.

(** The [cancel-tcpip-forward] case. *)
Definition handle_cancel (username : string) (payload : list byte)
    (w : World) : World * list Call :=
  let s := server w in
  match parseForwardPort payload with
  | None => (w, [Reply false []])
  | Some port =>
      let key := username +:+ ":" +:+ port in
      match activeTunnelM s !! key with
      | Some hostStr =>
          (with_server w
             {| manager := RemoveRoute hostStr (manager s); zone := zone s;
                activeTunnelM := delete key (activeTunnelM s);
                logRequests := logRequests s |},
           [Reply true []])
      | None => (w, [Reply true []])
      end
  end.

(** One iteration of [for req := range reqs]. *)
Definition handle_request (username : string) (req : Request)
    (os : ListenResult) (now : Z) (w : World) : World * list Call :=
  if String.eqb (req_Type req) "tcpip-forward"
  then handle_forward username (req_Payload req) os now w
  else if String.eqb (req_Type req) "cancel-tcpip-forward"
  then handle_cancel username (req_Payload req) w
  else (w, [Reply false []]).

(** The callback of [activeTunnelM.Range] at the end of [HandleConn]. *)
Definition cleanup_visit (username : string) (s : SSHServer)
    (kv : string * string) : SSHServer :=
  if HasPrefix kv.1 (username +:+ ":")
  then {| manager := RemoveRoute kv.2 (manager s); zone := zone s;
          activeTunnelM := delete kv.1 (activeTunnelM s);
          logRequests := logRequests s |}
  else s.

(** The clean-up on disconnect: [Range] calls the callback once for every
    entry of the map, in an order it does not specify; the model visits
    them in the order of [map_to_list], and the lemmas on the fold hold for
    every list of visits. *)
Definition cleanup (username : string) (s : SSHServer) : SSHServer :=
  foldl (cleanup_visit username) s (map_to_list (activeTunnelM s)).

Definition disconnect (username : string) (w : World) : World :=
  with_server w (cleanup username (server w)).

(** The goroutine started for a connection accepted on a listener;
    [dialed] tells whether [net.Dial] succeeded. *)
Definition serve_accepted (upstreamHost upstreamPort : string)
    (dialed : bool) : list Call :=
  net_Dial "tcp" (upstreamHost +:+ ":" +:+ upstreamPort) ::
  (if dialed
   then [io_Copy "upstreamConn" "c"; io_Copy "c" "upstreamConn";
         Conn_Close "upstreamConn"; Conn_Close "c"]
   else [Conn_Close "c"]).

(** A connection arrives on loopback port [port]: the acceptor of that
    listener, if there is one, serves it. *)
Definition accept_conn (port : Z) (dialed : bool) (w : World)
    : option (list Call) :=
  if bool_decide (port ∈ listening (net w)) then
    match acceptors (net w) !! port with
    | Some (h, p) => Some (serve_accepted h p dialed)
    | None => None
    end
  else None.

(** [HandleConn] after the handshake: [username] comes from the session
    permissions; an empty one ends the session at once. *)
Definition HandleConn (username : string)
    (reqs : list (Request * ListenResult * Z)) (w : World) : World :=
  if String.eqb username EmptyString then w
  else
    disconnect username
      (foldl (λ w r, (handle_request username r.1.1 r.1.2 r.2 w).1) w reqs).

(** ** Sessions running side by side *)

(** What the sessions of the server do, one handler at a time: session
    number [session], authenticated as [username], handles a global request,
    or ends.  The number only names the session in a trace: [HandleConn]
    keeps no identity of a session besides its user name. *)
Inductive Event :=
| EvRequest (session : nat) (username : string) (req : Request)
            (os : ListenResult) (now : Z)
| EvDisconnect (session : nat) (username : string).

Definition step (w : World) (ev : Event) : World :=
  match ev with
  | EvRequest _ username req os now =>
      (handle_request username req os now w).1
  | EvDisconnect _ username => disconnect username w
  end.

Definition run (w : World) (evs : list Event) : World := foldl step w evs.

(** Operations on the route table, for interleavings on other hosts. *)
Inductive RouteOp :=
| OpAdd (now : Z) (host target : string)
| OpRemove (host : string).

Definition op_host (o : RouteOp) : string :=
  match o with
  | OpAdd _ host _ => host
  | OpRemove host => host
  end.

Definition apply_op (m : ShardedRouteManager) (o : RouteOp)
    : ShardedRouteManager :=
  match o with
  | OpAdd now host target => default m (AddRoute now host target m)
  | OpRemove host => RemoveRoute host m
  end.

(** The payload [Connect] of [client.go] sends: the length of the address,
    the address, the port. *)
Definition forward_payload (addr : list byte) (port : Z) : list byte :=
  BigEndian_PutUint32 (Z.of_nat (length addr)) ++ addr ++
  BigEndian_PutUint32 port.

(** ** Predicates used in the statements *)

(** The array [shards] has [routeShards] cells. *)
Definition wf_manager (m : ShardedRouteManager) : Prop :=
  length (shards m) = Z.to_nat routeShards.

(** Shard number [i] holds an entry for [host]. *)
Definition stored_in (m : ShardedRouteManager) (i : nat) (host : string)
    : Prop :=
  ∃ s : shard, shards m !! i = Some s ∧ is_Some (s !! host).

(** The shard selection in the words of the specification: a fold of
    multiply-xor over the bytes in 32-bit arithmetic, then modulo 256. *)
Definition shard_of_bytes (host : string) : Z :=
  fold_left (λ h b, Z.lxor ((h * 16777619) mod 2 ^ 32) b)
            (map byte_of_char (list_ascii_of_string host)) 0
  mod 256.

(** The length field of a payload, and the port field behind the address. *)
Definition addr_len (payload : list byte) : Z :=
  BigEndian_Uint32 (take 4 payload).

Definition port_field (payload : list byte) : Z :=
  BigEndian_Uint32 (take 4 (drop (Z.to_nat (4 + addr_len payload)) payload)).

(** A payload is malformed when it is shorter than 4 bytes, or shorter than
    [4 + L + 4] bytes for the length [L] in its first four bytes. *)
Definition malformed (payload : list byte) : Prop :=
  Z.of_nat (length payload) < 4 ∨
  Z.of_nat (length payload) < 4 + addr_len payload + 4.

(** The handler answered the request with a positive reply. *)
Definition accepted (out : World * list Call) : Prop :=
  ∃ payload, Reply true payload ∈ out.2.

(** The bookkeeping key of a forward, and the host name of a user. *)
Definition tunnel_key (username : string) (port : Z) : string :=
  username +:+ ":" +:+ Sprintf_d port.

Definition user_host (username : string) (s : SSHServer) : string :=
  username +:+ "." +:+ zone s.

(** Every bookkeeping entry maps [user:port] to the host of that user. *)
Definition bookkeeping_ok (s : SSHServer) : Prop :=
  ∀ k v, activeTunnelM s !! k = Some v →
         ∃ u p, k = tunnel_key u p ∧ v = user_host u s.

(** Every acceptor goroutine runs with the same two arguments. *)
Definition acceptors_ok (n : Net) : Prop :=
  ∀ port hp, acceptors n !! port = Some hp → hp = ("localhost", "3000").

Definition cancel_request (payload : list byte) : Request :=
  {| req_Type := "cancel-tcpip-forward"; req_Payload := payload |}.

Definition forward_request (payload : list byte) : Request :=
  {| req_Type := "tcpip-forward"; req_Payload := payload |}.

(** The events of one run of [HandleConn] for session [sid]. *)
Definition session_events (sid : nat) (username : string)
    (reqs : list (Request * ListenResult * Z)) : list Event :=
  (map (λ r, EvRequest sid username r.1.1 r.1.2 r.2) reqs ++
   [EvDisconnect sid username])%list.

(** Every session that handled a request has ended later in the trace. *)
Definition all_sessions_ended (evs : list Event) : Prop :=
  ∀ pre post sid u req os now,
    evs = (pre ++ EvRequest sid u req os now :: post)%list →
    EvDisconnect sid u ∈ post.

(** User [u] has sent a request and no session of [u] has ended since. *)
Definition pending (u : string) (evs : list Event) : Prop :=
  ∃ pre post sid req os now,
    evs = (pre ++ EvRequest sid u req os now :: post)%list ∧
    ∀ sid', EvDisconnect sid' u ∉ post.

(** Every stored host sits in the shard its hash selects. *)
Definition partitioned (m : ShardedRouteManager) : Prop :=
  ∀ i host, stored_in m i host → i = Z.to_nat (shardIdx host).

End Tunnelfy.

Unset Implicit Arguments.

(** ** Concrete data for running the model *)

Definition sample_mgr : ShardedRouteManager string :=
  NewShardedRouteManager string false.

Definition sample_world : World string := boot string "example.test" false.

(** The payload of a request for bind address [0.0.0.0] and port [port]. *)
Definition sample_payload (port : Z) : list byte :=
  forward_payload [x30; x2e; x30; x2e; x30; x2e; x30] port.

(** Session 1 of [alice] obtains a forward on port 40000. *)
Definition alice_forward : Event :=
  EvRequest 1 "alice" (forward_request (sample_payload 0)) (Listening 40000) 7.

(** Session 3 of [bob] obtains a forward on port 40001. *)
Definition bob_forward : Event :=
  EvRequest 3 "bob" (forward_request (sample_payload 0)) (Listening 40001) 8.

(** ** The snapshot, the key file, the client and the configuration *)

Set Implicit Arguments.

Section Snapshot.

Variable URL : Type.

(** The method [String] of [url.URL]. *)
Variable url_String : URL → string.

(** [ListRoutes]: the shards in index order, and in each shard
    [out[k] = v.TargetURL.String()] for every entry. *)
Definition ListRoutes (m : ShardedRouteManager URL) : gmap string string :=
  foldl (λ (out : gmap string string) (s : shard URL),
           map_fold (λ (k : string) (v : UpstreamEntry URL)
                       (out : gmap string string),
                       <[k := url_String (TargetURL v)]> out)
                    out s)
        ∅ (shards m).

End Snapshot.

Section AuthorizedKeys.

(** [ssh.PublicKey], [ssh.ParseAuthorizedKey] (its first result, [None] for
    an error), [ssh.MarshalAuthorizedKey] and [strings.TrimSpace]. *)
Variable PublicKey : Type.
Variable ParseAuthorizedKey : string → option PublicKey.
Variable MarshalAuthorizedKey : PublicKey → string.
Variable TrimSpace : string → string.

(** The loop of [LoadAuthorizedKeys] over the lines the scanner yields:
    [None] is the return on a line that does not parse. *)
Fixpoint load_keys (lines : list string) (out : gmap string PublicKey)
    : option (gmap string PublicKey) :=
  match lines with
  | [] => Some out
  | raw :: rest =>
      let line := TrimSpace raw in
      if String.eqb line EmptyString || HasPrefix line "#"
      then load_keys rest out
      else
        match ParseAuthorizedKey line with
        | None => None
        | Some pub => load_keys rest (<[MarshalAuthorizedKey pub := pub]> out)
        end
  end.

Inductive LoadError :=
| ErrParseKeyLine
| ErrScanner
| ErrNoKeys.

(** [LoadAuthorizedKeys] on the lines of [keysData]; [scan_failed] tells
    whether [scanner.Err()] is an error after the loop. *)
Definition LoadAuthorizedKeys (lines : list string) (scan_failed : bool)
    : LoadError + gmap string PublicKey :=
  match load_keys lines ∅ with
  | None => inl ErrParseKeyLine
  | Some out =>
      if scan_failed then inl ErrScanner
      else if (size out =? 0)%nat then inl ErrNoKeys
      else inr out
  end.

(** [PublicKeyCallback] of [NewSSHServer]: the extensions of the granted
    permissions, or [None] for the error [unauthorized key]. *)
Definition PublicKeyCallback (authorizedKeys : gmap string PublicKey)
    (user : string) (key : PublicKey) : option (gmap string string) :=
  match authorizedKeys !! MarshalAuthorizedKey key with
  | Some _ => Some {[ "username" := user ]}
  | None => None
  end.

(** The user name [HandleConn] reads back from the permissions. *)
Definition session_username (permissions : option (gmap string string))
    : string :=
  match permissions with
  | Some extensions => default EmptyString (extensions !! "username")
  | None => EmptyString
  end.

(** A line that the loop hands to the parser. *)
Definition key_line (raw : string) : Prop :=
  TrimSpace raw ≠ EmptyString ∧ HasPrefix (TrimSpace raw) "#" = false.

End AuthorizedKeys.

(** *** The client *)

Record ClientConfig := {
  ServerAddress : string;
  Username : string;
  KeyPath : string;
  LocalServiceAddress : string
}.

(** What [Connect] does outside the process, in order. *)
Inductive ClientCall :=
| os_ReadFile (path : string)
| ssh_ParsePrivateKey (key : list byte)
| ssh_Dial (network address user : string)
| conn_SendRequest (name : string) (wantReply : bool) (payload : list byte)
| conn_Close
| go_monitorConnection.

Inductive ConnectError :=
| ErrReadKey
| ErrParseKey
| ErrDial
| ErrSendRequest
| ErrRejected
| ErrMalformedReply.

(** What the outside answers: the key file ([None] for a read error),
    whether the key parses, whether the dial succeeds, and the result of
    [SendRequest] ([None] for an error). *)
Record ClientEnv := {
  key_file : option (list byte);
  key_parses : bool;
  dial_succeeds : bool;
  request_result : option (bool * list byte)
}.

(** The payload [Connect] builds: address [0.0.0.0], port 0. *)
Definition connect_payload : list byte :=
  forward_payload (list_byte_of_string "0.0.0.0") 0.

(** The method [Connect] of [Client]: the error or the assigned port, and
    the calls. *)
Definition Connect (c : ClientConfig) (env : ClientEnv)
    : (ConnectError + Z) * list ClientCall :=
  match key_file env with
  | None => (inl ErrReadKey, [os_ReadFile (KeyPath c)])
  | Some key =>
      let read := [os_ReadFile (KeyPath c); ssh_ParsePrivateKey key] in
      if negb (key_parses env) then (inl ErrParseKey, read)
      else
        let dialed :=
          (read ++ [ssh_Dial "tcp" (ServerAddress c) (Username c)])%list in
        if negb (dial_succeeds env) then (inl ErrDial, dialed)
        else
          let sent :=
            (dialed ++ [conn_SendRequest "tcpip-forward" true connect_payload])%list
          in
          match request_result env with
          | None => (inl ErrSendRequest, (sent ++ [conn_Close])%list)
          | Some (ok, replyPayload) =>
              if negb ok then (inl ErrRejected, (sent ++ [conn_Close])%list)
              else if negb (length replyPayload =? 4)%nat
              then (inl ErrMalformedReply, (sent ++ [conn_Close])%list)
              else (inr (BigEndian_Uint32 (take 4 replyPayload)),
                    (sent ++ [go_monitorConnection])%list)
          end
  end.

(** The answer the client gets to its request: the [Reply] call of the
    server's handler. *)
Definition reply_of (calls : list Call) : option (bool * list byte) :=
  head (omap (λ c, match c with
                   | Reply ok payload => Some (ok, payload)
                   | _ => None
                   end) calls).

(** *** The configuration *)

(** [os.Getenv] on an environment. *)
Definition Getenv (env : gmap string string) (key : string) : string :=
  default EmptyString (env !! key).

Definition getenvOrDefault (env : gmap string string) (key def : string)
    : string :=
  let v := Getenv env key in
  if negb (String.eqb v EmptyString) then v else def.

Record Config := {
  Zone : string;
  SSHListen : string;
  HTTPListen : string;
  AuthorizedKeys : string;
  LogRequests : bool
}.

(** [config.Load] on the environment as it is after [godotenv.Load];
    [None] is the returned [ConfigError].  [ToLower] is
    [strings.ToLower]. *)
Definition Load (ToLower : string → string) (env : gmap string string)
    : option Config :=
  let cfg :=
    {| Zone := getenvOrDefault env "ZONE" "example.com";
       SSHListen := getenvOrDefault env "SSH_LISTEN" ":2222";
       HTTPListen := getenvOrDefault env "HTTP_LISTEN" ":8080";
       AuthorizedKeys := Getenv env "AUTHORIZED_KEYS_DATA";
       LogRequests :=
         negb (String.eqb (ToLower (Getenv env "LOG_REQUESTS")) "false") |} in
  if String.eqb (AuthorizedKeys cfg) EmptyString then None else Some cfg.

(** What an operation does to the shard of its host. *)
Definition op_shard (URL : Type) (url_Parse : string → option URL)
    (o : RouteOp) : shard URL → shard URL :=
  match o with
  | OpAdd now host target =>
      match url_Parse (normalize target) with
      | Some u => λ s, <[host := new_entry now u]> s
      | None => λ s, s
      end
  | OpRemove host => λ s, delete host s
  end.

(** The OS answer to a forward is admissible when the port it reports is
    not already taken by a listener of the server. *)
Definition admissible (w_listening : gset Z) (ev : Event) : Prop :=
  match ev with
  | EvRequest _ _ _ (Listening P) _ => P ∉ w_listening
  | _ => True
  end.

Unset Implicit Arguments.

(** A stand-in for [strings.ToLower] on ASCII text. *)
Definition sample_ToLower (s : string) : string :=
  string_of_list_ascii
    (map (λ c, let n := nat_of_ascii c in
               if (65 <=? n)%nat && (n <=? 90)%nat
               then ascii_of_nat (n + 32) else c)
         (list_ascii_of_string s)).

(** A stand-in for [ssh.ParseAuthorizedKey]: a key is its own line, and a
    line is a key when it starts with [ssh-]. *)
Definition sample_ParseKey (line : string) : option string :=
  if HasPrefix line "ssh-" then Some line else None.

Definition sample_key_lines : list string :=
  ["# keys of the team"; EmptyString; "ssh-ed25519 AAAAC3Nz alice"].

(** The server state after [alice] and [bob] each obtained a forward. *)
Definition two_forwards : World string :=
  run sample_Parse sample_world [alice_forward; bob_forward].

(** * Properties *)

Section Properties.

Context {URL : Type} (url_Parse : string → option URL).

Implicit Types (m : ShardedRouteManager URL) (host target : string).

Local Arguments String.append !_ _ / : simpl nomatch.

(** ** Strings *)

Lemma HasPrefix_spec (s p : string) :
  HasPrefix s p = true ↔ ∃ r, s = p +:+ r.
Proof.
  unfold HasPrefix. revert s. induction p as [|a p IH]; intros s.
  - destruct s; simpl; split; eauto.
  - destruct s as [|b s]; simpl.
    + split; [discriminate | intros [r Hr]; discriminate].
    + destruct (ascii_dec a b) as [->|Hab].
      * rewrite IH. split; intros [r Hr]; exists r; simpl in *; congruence.
      * split; [discriminate | intros [r Hr]; simpl in Hr; congruence].
Qed.

Lemma IndexByte_ge (s : string) (c : ascii) : -1 ≤ IndexByte s c.
Proof.
  induction s as [|a s IH]; simpl; [lia|].
  destruct (Ascii.eqb a c); [lia|].
  destruct (IndexByte s c <? 0) eqn:E; lia.
Qed.

Lemma IndexByte_cons_none (a : ascii) (s : string) (c : ascii) :
  IndexByte (String a s) c = -1 ↔ a ≠ c ∧ IndexByte s c = -1.
Proof.
  simpl. pose proof (IndexByte_ge s c).
  destruct (Ascii.eqb_spec a c) as [->|Hne].
  - split; [lia | intros [? _]; congruence].
  - destruct (IndexByte s c <? 0) eqn:E; split; try lia; intros; split;
      auto; lia.
Qed.

Lemma IndexByte_app_none (s t : string) (c : ascii) :
  IndexByte (s +:+ t) c = -1 ↔ IndexByte s c = -1 ∧ IndexByte t c = -1.
Proof.
  induction s as [|a s IH].
  - simpl. intuition.
  - change (String a s +:+ t) with (String a (s +:+ t)).
    rewrite !IndexByte_cons_none, IH. intuition.
Qed.

(** [cut_at c s] is [s] up to its first [c]. *)
Lemma cut_at_spec (c : ascii) (s : string) :
  IndexByte (cut_at c s) c = -1 ∧
  ((IndexByte s c = -1 ∧ cut_at c s = s) ∨
   (∃ rest, s = cut_at c s +:+ String c rest)).
Proof.
  unfold cut_at. induction s as [|a s IH].
  - simpl. split; [done|]. by left.
  - pose proof (IndexByte_ge s c) as Hge. simpl IndexByte.
    destruct (Ascii.eqb_spec a c) as [->|Hne].
    + simpl. split; [done|]. right. by exists s.
    + destruct (IndexByte s c <? 0) eqn:E.
      * assert (IndexByte s c = -1) as Hs by lia.
        rewrite Hs in IH. simpl in IH.
        assert ((0 <=? -1) = false) as -> by done.
        split.
        { apply IndexByte_cons_none. split; [done|]. tauto. }
        left. split; [lia|done].
      * assert ((0 <=? IndexByte s c) = true) as Hs by lia.
        rewrite Hs in IH.
        assert ((0 <=? IndexByte s c + 1) = true) as -> by lia.
        replace (Z.to_nat (IndexByte s c + 1))
          with (S (Z.to_nat (IndexByte s c))) by lia.
        simpl. destruct IH as [IH1 IH2]. split.
        { apply IndexByte_cons_none. by split. }
        right. destruct IH2 as [[IH2 _]|[rest Hrest]]; [lia|].
        exists rest. simpl. by rewrite <- Hrest.
Qed.

Lemma substring_all (s : string) : String.substring 0 (String.length s) s = s.
Proof. induction s as [|a s IH]; simpl; [done|]. by rewrite IH. Qed.

Lemma substring_app_r (p s : string) :
  String.substring (String.length p) (String.length s) (p +:+ s) = s.
Proof. induction p as [|a p IH]; simpl; [apply substring_all | apply IH]. Qed.

Lemma length_app (p s : string) :
  String.length (p +:+ s) = (String.length p + String.length s)%nat.
Proof. induction p as [|a p IH]; simpl; [done|]. by rewrite IH. Qed.

Lemma substring_split (s : string) (n : nat) :
  (n ≤ String.length s)%nat →
  s = String.substring 0 n s +:+ String.substring n (String.length s - n) s.
Proof.
  revert n. induction s as [|a s IH]; intros [|n] Hn; simpl in *.
  - done.
  - lia.
  - by rewrite substring_all.
  - f_equal. apply IH. lia.
Qed.

Lemma HasSuffix_spec (s suffix : string) :
  HasSuffix s suffix = true ↔ ∃ p, s = p +:+ suffix.
Proof.
  unfold HasSuffix. rewrite andb_true_iff, Nat.leb_le, String.eqb_eq. split.
  - intros [Hlen Hsub].
    exists (String.substring 0 (String.length s - String.length suffix)%nat s).
    rewrite (substring_split s (String.length s - String.length suffix)%nat)
      at 1 by lia.
    f_equal. rewrite <- Hsub at 3. f_equal. lia.
  - intros [p ->]. rewrite length_app. split; [lia|].
    replace (String.length p + String.length suffix - String.length suffix)%nat
      with (String.length p) by lia.
    apply substring_app_r.
Qed.

(** Decimal numerals hold no colon. *)
Lemma pretty_N_go_no_colon (x : N) (s : string) :
  IndexByte s ":" = -1 → IndexByte (pretty_N_go x s) ":" = -1.
Proof.
  revert s. induction (N.lt_wf_0 x) as [x _ IH]; intros s Hs.
  destruct (decide (x = 0%N)) as [->|Hx].
  - by rewrite pretty_N_go_0.
  - rewrite pretty_N_go_step by lia. apply IH.
    + apply N.div_lt; lia.
    + apply IndexByte_cons_none. split; [|done].
      unfold pretty_N_char. by repeat case_match.
Qed.

Lemma pretty_N_no_colon (x : N) : IndexByte (pretty x) ":" = -1.
Proof.
  unfold pretty, pretty_N. case_decide; [done|].
  by apply pretty_N_go_no_colon.
Qed.

Lemma Sprintf_d_no_colon (z : Z) : IndexByte (Sprintf_d z) ":" = -1.
Proof.
  unfold Sprintf_d, pretty, pretty_Z. destruct z as [|p|p]; [done| |].
  - apply pretty_N_no_colon.
  - apply IndexByte_app_none. split; [done|]. apply pretty_N_no_colon.
Qed.

Lemma app_inj_r (s1 s2 t : string) : s1 +:+ t = s2 +:+ t → s1 = s2.
Proof.
  revert s2. induction s1 as [|a s1 IH]; intros [|b s2] H; simpl in *.
  - done.
  - apply (f_equal String.length) in H. simpl in H. rewrite length_app in H.
    lia.
  - apply (f_equal String.length) in H. simpl in H. rewrite length_app in H.
    lia.
  - injection H as -> H. f_equal. by apply IH.
Qed.

(** ** The route table *)

Lemma shardIdx_range host : 0 ≤ shardIdx host < 256.
Proof. unfold shardIdx, wrap8. apply Z.mod_pos_bound. lia. Qed.

Lemma shardIdx_lt host : (Z.to_nat (shardIdx host) < 256)%nat.
Proof. pose proof (shardIdx_range host). lia. Qed.

Lemma shardIdx_loop_fold (key : string) (h : Z) :
  shardIdx_loop key h =
  fold_left (λ h b, Z.lxor ((h * 16777619) mod 2 ^ 32) b)
            (map byte_of_char (list_ascii_of_string key)) h.
Proof. revert h. induction key as [|c key IH]; intros h; simpl; auto. Qed.

Lemma shardIdx_fold host : shardIdx host = shard_of_bytes host.
Proof.
  unfold shardIdx, shard_of_bytes, wrap8, routeShards.
  rewrite shardIdx_loop_fold.
  apply Z.mod_small, Z.mod_pos_bound. lia.
Qed.

Lemma wf_New (logRequests : bool) :
  wf_manager (NewShardedRouteManager URL logRequests).
Proof. reflexivity. Qed.

Lemma wf_AddRoute now host target m m' :
  wf_manager m → AddRoute url_Parse now host target m = Some m' →
  wf_manager m'.
Proof.
  unfold wf_manager, AddRoute. intros Hwf H.
  destruct (url_Parse (normalize target)); [|discriminate].
  injection H as <-. simpl. by rewrite length_alter.
Qed.

Lemma wf_RemoveRoute host m : wf_manager m → wf_manager (RemoveRoute host m).
Proof. unfold wf_manager, RemoveRoute. simpl. by rewrite length_alter. Qed.

Lemma wf_apply_op m o : wf_manager m → wf_manager (apply_op url_Parse m o).
Proof.
  intros Hwf. destruct o as [now host target|host]; simpl.
  - destruct (AddRoute url_Parse now host target m) eqn:E; simpl;
      eauto using wf_AddRoute.
  - by apply wf_RemoveRoute.
Qed.

Lemma wf_ops m ops : wf_manager m → wf_manager (foldl (apply_op url_Parse) m ops).
Proof.
  revert m. induction ops as [|o ops IH]; intros m Hwf; simpl; auto.
  apply IH, wf_apply_op, Hwf.
Qed.

Lemma wf_shard m host :
  wf_manager m → is_Some (shards m !! Z.to_nat (shardIdx host)).
Proof.
  intros Hwf. apply lookup_lt_is_Some. rewrite Hwf.
  pose proof (shardIdx_lt host). unfold routeShards. lia.
Qed.

Lemma GetEntry_AddRoute_eq now host target m m' :
  wf_manager m → AddRoute url_Parse now host target m = Some m' →
  ∃ u, url_Parse (normalize target) = Some u ∧
       GetEntry host m' = Some (new_entry now u).
Proof.
  intros Hwf H. unfold AddRoute in H.
  destruct (url_Parse (normalize target)) as [u|]; [|discriminate].
  injection H as <-. exists u. split; [done|].
  unfold GetEntry. simpl. rewrite list_lookup_alter_eq.
  destruct (wf_shard m host Hwf) as [s ->]. simpl.
  unfold shard in *. apply lookup_insert_eq.
Qed.

Lemma GetEntry_AddRoute_ne now host host' target m m' :
  host ≠ host' → AddRoute url_Parse now host target m = Some m' →
  GetEntry host' m' = GetEntry host' m.
Proof.
  intros Hne H. unfold AddRoute in H.
  destruct (url_Parse (normalize target)) as [u|]; [|discriminate].
  injection H as <-. unfold GetEntry. simpl.
  destruct (decide (Z.to_nat (shardIdx host) = Z.to_nat (shardIdx host')))
    as [He|He].
  - rewrite He, list_lookup_alter_eq.
    destruct (shards m !! Z.to_nat (shardIdx host')); simpl; [|done].
    unfold shard in *. by apply lookup_insert_ne.
  - by rewrite list_lookup_alter_ne.
Qed.

Lemma GetEntry_RemoveRoute_eq host m : GetEntry host (RemoveRoute host m) = None.
Proof.
  unfold GetEntry, RemoveRoute. simpl. rewrite list_lookup_alter_eq.
  destruct (shards m !! Z.to_nat (shardIdx host)); simpl; [|done].
  unfold shard in *. apply lookup_delete_eq.
Qed.

Lemma GetEntry_RemoveRoute_ne host host' m :
  host ≠ host' → GetEntry host' (RemoveRoute host m) = GetEntry host' m.
Proof.
  intros Hne. unfold GetEntry, RemoveRoute. simpl.
  destruct (decide (Z.to_nat (shardIdx host) = Z.to_nat (shardIdx host')))
    as [He|He].
  - rewrite He, list_lookup_alter_eq.
    destruct (shards m !! Z.to_nat (shardIdx host')); simpl; [|done].
    unfold shard in *. by apply lookup_delete_ne.
  - by rewrite list_lookup_alter_ne.
Qed.

Lemma GetEntry_apply_op_ne host m o :
  op_host o ≠ host → GetEntry host (apply_op url_Parse m o) = GetEntry host m.
Proof.
  destruct o as [now h t|h]; simpl; intros Hne.
  - destruct (AddRoute url_Parse now h t m) eqn:E; simpl; [|done].
    eapply GetEntry_AddRoute_ne; eauto.
  - by apply GetEntry_RemoveRoute_ne.
Qed.

Lemma GetEntry_ops_ne host m ops :
  Forall (λ o, op_host o ≠ host) ops →
  GetEntry host (foldl (apply_op url_Parse) m ops) = GetEntry host m.
Proof.
  intros H. revert m. induction H as [|o ops Ho _ IH]; intros m; simpl; auto.
  rewrite IH. by apply GetEntry_apply_op_ne.
Qed.

Lemma normalize_cases target :
  ((∃ r, target = "http://" +:+ r) ∨ (∃ r, target = "https://" +:+ r) →
   normalize target = target) ∧
  ((∀ r, target ≠ "http://" +:+ r) ∧ (∀ r, target ≠ "https://" +:+ r) →
   normalize target = "http://" +:+ target).
Proof.
  unfold normalize. split.
  - intros [H|H]; apply HasPrefix_spec in H; rewrite H; simpl; auto.
    by rewrite orb_true_r.
  - intros [H1 H2].
    destruct (HasPrefix target "http://") eqn:E1.
    { apply HasPrefix_spec in E1 as [r Hr]. by destruct (H1 r). }
    destruct (HasPrefix target "https://") eqn:E2.
    { apply HasPrefix_spec in E2 as [r Hr]. by destruct (H2 r). }
    done.
Qed.

(** The partition of hosts over shards holds in every table built from an
    empty one. *)
Lemma partitioned_New (logRequests : bool) :
  partitioned (NewShardedRouteManager URL logRequests).
Proof.
  intros i host [s [Hs Hh]].
  change (replicate (Z.to_nat routeShards) (∅ : shard URL) !! i = Some s) in Hs.
  apply lookup_replicate in Hs as [-> _].
  unfold shard in Hh. rewrite lookup_empty in Hh. by destruct Hh.
Qed.

Lemma partitioned_alter m (f : shard URL → shard URL) (h : string) :
  (∀ s host, host ≠ h → f s !! host = s !! host) →
  partitioned m →
  partitioned {| shards := alter f (Z.to_nat (shardIdx h)) (shards m);
                 mgr_logRequests := mgr_logRequests m |}.
Proof.
  intros Hf Hinv i host [s [Hs Hh]]. simpl in Hs.
  destruct (decide (Z.to_nat (shardIdx h) = i)) as [<-|Hi].
  - rewrite list_lookup_alter_eq in Hs.
    destruct (shards m !! Z.to_nat (shardIdx h)) as [s0|] eqn:E0;
      simpl in Hs; [|discriminate].
    injection Hs as <-.
    destruct (decide (host = h)) as [->|Hne]; [done|].
    rewrite Hf in Hh by done. apply Hinv. by exists s0.
  - rewrite list_lookup_alter_ne in Hs by done.
    apply Hinv. by exists s.
Qed.

Lemma partitioned_AddRoute now host target m m' :
  AddRoute url_Parse now host target m = Some m' →
  partitioned m → partitioned m'.
Proof.
  unfold AddRoute. destruct (url_Parse (normalize target)); [|discriminate].
  intros [= <-]. apply partitioned_alter.
  intros s h Hne. unfold shard in *. by apply lookup_insert_ne.
Qed.

Lemma partitioned_RemoveRoute host m :
  partitioned m → partitioned (RemoveRoute host m).
Proof.
  apply partitioned_alter.
  intros s h Hne. unfold shard in *. by apply lookup_delete_ne.
Qed.

Lemma partitioned_ops (logRequests : bool) ops :
  partitioned (foldl (apply_op url_Parse)
                     (NewShardedRouteManager URL logRequests) ops).
Proof.
  induction ops as [|o ops IH] using rev_ind; [apply partitioned_New|].
  rewrite foldl_app. simpl. destruct o as [now h t|h]; simpl.
  - destruct (AddRoute url_Parse now h t _) eqn:E; simpl; [|done].
    eapply partitioned_AddRoute; eauto.
  - by apply partitioned_RemoveRoute.
Qed.

(** C9: the shard index of a host is the multiply-xor fold over its bytes in
    32-bit arithmetic reduced modulo 256, a function of the host alone; it
    lies in [0, 256); [AddRoute], [RemoveRoute] and [GetEntry] touch no
    shard but that one; and in every table built from an empty one a host
    is stored in no other shard. *)
Theorem C9_shard_partition (host : string) :
  shardIdx host = shard_of_bytes host ∧
  0 ≤ shardIdx host < 256 ∧
  (∀ now target m m' (i : nat),
     AddRoute url_Parse now host target m = Some m' →
     i ≠ Z.to_nat (shardIdx host) → shards m' !! i = shards m !! i) ∧
  (∀ m (i : nat),
     i ≠ Z.to_nat (shardIdx host) →
     shards (RemoveRoute host m) !! i = shards m !! i) ∧
  (∀ m, GetEntry host m =
        shards m !! Z.to_nat (shardIdx host) ≫= (λ s : shard URL, s !! host)) ∧
  (∀ (logRequests : bool) ops (i j : nat),
     let m := foldl (apply_op url_Parse)
                    (NewShardedRouteManager URL logRequests) ops in
     (stored_in m i host → i = Z.to_nat (shardIdx host)) ∧
     (stored_in m i host → stored_in m j host → i = j)).
Proof.
  split; [apply shardIdx_fold|]. split; [apply shardIdx_range|].
  split; [|split; [|split]].
  - intros now target m m' i H Hi. unfold AddRoute in H.
    destruct (url_Parse (normalize target)); [|discriminate].
    injection H as <-. simpl. by rewrite list_lookup_alter_ne.
  - intros m i Hi. unfold RemoveRoute. simpl.
    by rewrite list_lookup_alter_ne.
  - intros m. unfold GetEntry.
    by destruct (shards m !! Z.to_nat (shardIdx host)).
  - intros logRequests ops i j m. split.
    + apply partitioned_ops.
    + intros Hi%partitioned_ops Hj%partitioned_ops. congruence.
Qed.

(** C3: when [AddRoute host target] returns no error, then after any further
    operations on other hosts [GetEntry host] returns an entry whose target
    URL is the parse of [normalize target], where [normalize] leaves a
    target with an [http://] or [https://] prefix as it is and prepends
    [http://] to any other; and after [RemoveRoute host], and any further
    operations on other hosts, [GetEntry host] misses. *)
Theorem C3_lookup_after_install now host target m m' ops ops' :
  wf_manager m →
  AddRoute url_Parse now host target m = Some m' →
  Forall (λ o, op_host o ≠ host) ops →
  Forall (λ o, op_host o ≠ host) ops' →
  let m1 := foldl (apply_op url_Parse) m' ops in
  let m2 := foldl (apply_op url_Parse) (RemoveRoute host m1) ops' in
  (∃ e, GetEntry host m1 = Some e ∧
        url_Parse (normalize target) = Some (TargetURL e)) ∧
  ((∃ r, target = "http://" +:+ r) ∨ (∃ r, target = "https://" +:+ r) →
   normalize target = target) ∧
  ((∀ r, target ≠ "http://" +:+ r) ∧ (∀ r, target ≠ "https://" +:+ r) →
   normalize target = "http://" +:+ target) ∧
  GetEntry host m2 = None.
Proof.
  intros Hwf Hadd Hops Hops' m1 m2.
  destruct (GetEntry_AddRoute_eq now host target m m' Hwf Hadd) as [u [Hu He]].
  split; [|split; [|split]].
  - exists (new_entry now u). split; [|done].
    unfold m1. by rewrite GetEntry_ops_ne.
  - apply normalize_cases.
  - apply normalize_cases.
  - unfold m2. rewrite GetEntry_ops_ne by done.
    apply GetEntry_RemoveRoute_eq.
Qed.

(** ** The HTTP front door *)

(** C5: the handler looks up nothing but the Host value cut at its first
    colon; with a non-empty zone and a key that does not end in
    ["." + zone] it answers 400 [invalid host] and looks up nothing; with a
    key that passes the zone check and misses in the table it answers
    404. *)
Theorem C5_front_door m (zone r_Host : string) :
  let key := cut_at ":" r_Host in
  let out := FastProxyHandler m zone r_Host in
  IndexByte key ":" = -1 ∧
  ((IndexByte r_Host ":" = -1 ∧ key = r_Host) ∨
   (∃ rest, r_Host = key +:+ String ":" rest)) ∧
  (∀ k, k ∈ out.1 → k = key) ∧
  (zone ≠ EmptyString → (∀ p, key ≠ p +:+ "." +:+ zone) →
   out = ([], http_Error URL "invalid host" 400) ∧
   status_of out.2 = Some 400) ∧
  (zone = EmptyString ∨ (∃ p, key = p +:+ "." +:+ zone) →
   GetEntry key m = None →
   out = ([key], http_NotFound URL) ∧ status_of out.2 = Some 404).
Proof.
  intros key out. destruct (cut_at_spec ":" r_Host) as [Hk Hcut].
  split; [exact Hk|]. split; [exact Hcut|].
  unfold out, FastProxyHandler. fold key.
  split; [|split].
  - intros k.
    destruct (negb (String.eqb zone EmptyString) && negb (HasSuffix key ("." +:+ zone)));
      simpl; [by intros ?%elem_of_nil|].
    destruct (GetEntry key m); simpl; by intros ->%list_elem_of_singleton.
  - intros Hz Hsuf.
    assert (String.eqb zone EmptyString = false) as -> by by apply String.eqb_neq.
    assert (HasSuffix key ("." +:+ zone) = false) as ->.
    { destruct (HasSuffix key ("." +:+ zone)) eqn:E; [|done].
      apply HasSuffix_spec in E as [p Hp]. by destruct (Hsuf p). }
    done.
  - intros Hz Hmiss.
    assert (negb (String.eqb zone EmptyString) && negb (HasSuffix key ("." +:+ zone))
            = false) as ->.
    { destruct Hz as [->|Hp]; [done|].
      apply HasSuffix_spec in Hp. rewrite Hp. apply andb_false_r. }
    by rewrite Hmiss.
Qed.

(** ** Request payloads *)

Lemma parse_malformed (payload : list byte) :
  malformed payload → parseForwardPort payload = None.
Proof.
  unfold malformed, parseForwardPort, addr_len. intros H.
  destruct (Z.of_nat (length payload) <? 4) eqn:E1; [done|].
  destruct (Z.of_nat (length payload) <?
            4 + BigEndian_Uint32 (take 4 payload) + 4) eqn:E2; [done|].
  lia.
Qed.

Lemma parse_well_formed (payload : list byte) :
  ¬ malformed payload →
  parseForwardPort payload = Some (Sprintf_d (port_field payload)).
Proof.
  unfold malformed, parseForwardPort, port_field, addr_len. intros H.
  destruct (Z.of_nat (length payload) <? 4) eqn:E1; [lia|].
  destruct (Z.of_nat (length payload) <?
            4 + BigEndian_Uint32 (take 4 payload) + 4) eqn:E2; [lia|].
  done.
Qed.

Lemma byteZ_range (b : byte) : 0 ≤ byteZ b < 256.
Proof. unfold byteZ. pose proof (Byte.to_N_bounded b). lia. Qed.

Lemma byteZ_of_Z (v : Z) : byteZ (byte_of_Z v) = v mod 2 ^ 8.
Proof.
  unfold byte_of_Z, byteZ, wrap8.
  assert (0 ≤ v mod 2 ^ 8 < 256) as Hr by (apply Z.mod_pos_bound; lia).
  destruct (Byte.of_N (Z.to_N (v mod 2 ^ 8))) as [b|] eqn:E.
  - apply Byte.to_of_N in E. rewrite E. lia.
  - apply Byte.of_N_None_iff in E. lia.
Qed.

(** Reading back what [PutUint32] wrote gives the value modulo [2^32]. *)
Lemma Uint32_PutUint32 (v : Z) :
  BigEndian_Uint32 (BigEndian_PutUint32 v) = v mod 2 ^ 32.
Proof.
  unfold BigEndian_PutUint32, BigEndian_Uint32. rewrite !byteZ_of_Z.
  apply Z.bits_inj'. intros n Hn.
  rewrite !Z.lor_spec, !Z.testbit_mod_pow2 by lia.
  destruct (decide (n < 8)).
  { rewrite !Z.shiftl_spec_low by lia.
    replace (n <? 8) with true by lia. replace (n <? 32) with true by lia.
    by rewrite !orb_false_r. }
  rewrite (Z.shiftl_spec _ 8 n), Z.testbit_mod_pow2, Z.shiftr_spec by lia.
  replace (n - 8 + 8) with n by lia.
  destruct (decide (n < 16)).
  { rewrite !Z.shiftl_spec_low by lia.
    replace (n <? 8) with false by lia. replace (n - 8 <? 8) with true by lia.
    replace (n <? 32) with true by lia. simpl. by rewrite !orb_false_r. }
  rewrite (Z.shiftl_spec _ 16 n), Z.testbit_mod_pow2, Z.shiftr_spec by lia.
  replace (n - 16 + 16) with n by lia.
  destruct (decide (n < 24)).
  { rewrite !Z.shiftl_spec_low by lia.
    replace (n <? 8) with false by lia. replace (n - 8 <? 8) with false by lia.
    replace (n - 16 <? 8) with true by lia.
    replace (n <? 32) with true by lia. simpl. by rewrite !orb_false_r. }
  rewrite (Z.shiftl_spec _ 24 n), Z.testbit_mod_pow2, Z.shiftr_spec by lia.
  replace (n - 24 + 24) with n by lia.
  replace (n <? 8) with false by lia. replace (n - 8 <? 8) with false by lia.
  replace (n - 16 <? 8) with false by lia. simpl.
  destruct (decide (n < 32)).
  - replace (n - 24 <? 8) with true by lia.
    by replace (n <? 32) with true by lia.
  - replace (n - 24 <? 8) with false by lia.
    by replace (n <? 32) with false by lia.
Qed.

(** The four bytes of a slice, most significant first. *)
Lemma Uint32_value (b0 b1 b2 b3 : byte) (rest : list byte) :
  BigEndian_Uint32 (b0 :: b1 :: b2 :: b3 :: rest) =
  byteZ b0 * 2 ^ 24 + byteZ b1 * 2 ^ 16 + byteZ b2 * 2 ^ 8 + byteZ b3.
Proof.
  unfold BigEndian_Uint32.
  pose proof (byteZ_range b0). pose proof (byteZ_range b1).
  pose proof (byteZ_range b2). pose proof (byteZ_range b3).
  rewrite !Z.shiftl_mul_pow2 by lia.
  assert (∀ a b k, 0 ≤ k → 0 ≤ a < 2 ^ k → Z.lor a (b * 2 ^ k) = b * 2 ^ k + a)
    as Hlor.
  { intros a b k Hk Ha. rewrite <- Z.shiftl_mul_pow2 by lia.
    rewrite Z.add_nocarry_lor, Z.lor_comm; [done|].
    apply Z.bits_inj'. intros n Hn. rewrite Z.land_spec, Z.bits_0.
    destruct (decide (n < k)).
    - by rewrite Z.shiftl_spec_low by lia.
    - destruct (decide (a = 0)) as [->|];
        [rewrite Z.bits_0; apply andb_false_r|].
      rewrite (Z.bits_above_log2 a n); [apply andb_false_r|lia|].
      assert (Z.log2 a < k) by (apply Z.log2_lt_pow2; lia). lia. }
  rewrite (Hlor (byteZ b3) (byteZ b2) 8) by lia.
  rewrite (Hlor (byteZ b2 * 2 ^ 8 + byteZ b3) (byteZ b1) 16) by lia.
  rewrite (Hlor _ (byteZ b0) 24) by lia.
  lia.
Qed.

(** ** The request loop *)

Lemma normalize_loopback (d : string) :
  normalize ("127.0.0.1:" +:+ d) = "http://127.0.0.1:" +:+ d.
Proof. reflexivity. Qed.

Lemma handle_forward_eq username payload os now (w : World URL) :
  handle_request url_Parse username (forward_request payload) os now w
  = handle_forward url_Parse username payload os now w.
Proof. reflexivity. Qed.

Lemma handle_cancel_eq username payload os now (w : World URL) :
  handle_request url_Parse username (cancel_request payload) os now w
  = handle_cancel username payload w.
Proof. reflexivity. Qed.

(** C6: a [tcpip-forward] or [cancel-tcpip-forward] request with a malformed
    payload is answered [false] with no payload, and nothing else happens:
    no call to [net.Listen], and the route table, the bookkeeping and the
    listeners are what they were. *)
Theorem C6_malformed_payload username (req : Request) os now (w : World URL) :
  req_Type req = "tcpip-forward" ∨ req_Type req = "cancel-tcpip-forward" →
  malformed (req_Payload req) →
  handle_request url_Parse username req os now w = (w, [Reply false []]).
Proof.
  intros Hty Hbad. apply parse_malformed in Hbad.
  unfold handle_request, handle_forward, handle_cancel.
  destruct Hty as [-> | ->]; simpl; by rewrite Hbad.
Qed.

(** C7: a [cancel-tcpip-forward] with a well-formed payload whose
    [user:port] key is not recorded is answered [true], and the route table
    and the bookkeeping are what they were. *)
Theorem C7_idempotent_cancel username payload os now (w : World URL) :
  ¬ malformed payload →
  activeTunnelM (server w) !! tunnel_key username (port_field payload) = None →
  handle_request url_Parse username (cancel_request payload) os now w
  = (w, [Reply true []]).
Proof.
  intros Hok Hmiss. apply parse_well_formed in Hok.
  rewrite handle_cancel_eq. unfold handle_cancel.
  rewrite Hok. unfold tunnel_key in Hmiss. by rewrite Hmiss.
Qed.

(** C4: a [tcpip-forward] of user [username] with a well-formed payload for
    port [p], for which the listener got port [actualPort]: the server asked
    for a listener on [127.0.0.1:p]; when the install succeeds the route
    [username.zone] points to [127.0.0.1:actualPort], the forward is
    recorded under [username:actualPort], the listener is open and the
    reply is [true] with the four big-endian bytes of [actualPort]; when
    the install fails the listener is closed, the reply is [false] and the
    server state is what it was. *)
Theorem C4_tcpip_forward username payload actualPort now (w : World URL) :
  ¬ malformed payload →
  0 ≤ actualPort < 2 ^ 32 →
  wf_manager (manager (server w)) →
  let s := server w in
  let host := user_host username s in
  let listenAddr := "127.0.0.1:" +:+ Sprintf_d (port_field payload) in
  let out := handle_request url_Parse username (forward_request payload)
                            (Listening actualPort) now w in
  let s' := server out.1 in
  match AddRoute url_Parse now host ("127.0.0.1:" +:+ Sprintf_d actualPort)
                 (manager s) with
  | Some m' =>
      manager s' = m' ∧
      (∃ e, GetEntry host (manager s') = Some e ∧
            url_Parse ("http://127.0.0.1:" +:+ Sprintf_d actualPort)
            = Some (TargetURL e)) ∧
      activeTunnelM s' =
        <[tunnel_key username actualPort := host]> (activeTunnelM s) ∧
      listening (net out.1) = listening (net w) ∪ {[actualPort]} ∧
      ∃ b0 b1 b2 b3,
        out.2 = [net_Listen "tcp" listenAddr; Reply true [b0; b1; b2; b3];
                 go_acceptor actualPort "localhost" "3000"] ∧
        byteZ b0 * 2 ^ 24 + byteZ b1 * 2 ^ 16 + byteZ b2 * 2 ^ 8 + byteZ b3
        = actualPort
  | None =>
      s' = s ∧
      (actualPort ∉ listening (net out.1)) ∧
      out.2 = [net_Listen "tcp" listenAddr; Listener_Close actualPort;
               Reply false []]
  end.
Proof.
  intros Hok Hport Hwf s host listenAddr out s'.
  unfold s', out. rewrite handle_forward_eq. unfold handle_forward.
  rewrite (parse_well_formed payload Hok).
  fold s. change (username +:+ "." +:+ zone s) with host.
  destruct (AddRoute url_Parse now host ("127.0.0.1:" +:+ Sprintf_d actualPort)
                     (manager s)) as [m'|] eqn:Hadd; simpl.
  - split; [done|]. split.
    { destruct (GetEntry_AddRoute_eq _ _ _ _ _ Hwf Hadd) as [u [Hu He]].
      exists (new_entry now u). split; [done|].
      by rewrite normalize_loopback in Hu. }
    split; [done|]. split; [done|].
    eexists _, _, _, _. split; [reflexivity|].
    rewrite <- Uint32_value with (rest := []).
    change (BigEndian_Uint32 (BigEndian_PutUint32 (wrap32 actualPort))
            = actualPort).
    rewrite Uint32_PutUint32. unfold wrap32.
    rewrite !(Z.mod_small actualPort (2 ^ 32)); lia.
  - split; [done|]. split; [|done].
    intros [_ Hn]%elem_of_difference. apply Hn. by apply elem_of_singleton.
Qed.

(** ** Keys and host names *)

Lemma no_colon_app (d x y : string) :
  IndexByte d ":" = -1 → d ≠ x +:+ ":" +:+ y.
Proof.
  intros Hd ->. apply IndexByte_app_none in Hd as [_ Hd].
  simpl in Hd. done.
Qed.

(** A key splits in one way into a user and a numeral. *)
Lemma colon_split (u u' d d' : string) :
  IndexByte d ":" = -1 → IndexByte d' ":" = -1 →
  u +:+ ":" +:+ d = u' +:+ ":" +:+ d' → u = u' ∧ d = d'.
Proof.
  intros Hd Hd'. revert u'.
  induction u as [|a u IH]; intros [|b u'] H; simpl in H.
  - injection H as ->. done.
  - injection H as <- H. by destruct (no_colon_app d u' d' Hd).
  - injection H as -> H. symmetry in H. by destruct (no_colon_app d' u d Hd').
  - injection H as -> H. destruct (IH u' H) as [-> ->]. done.
Qed.

Lemma tunnel_key_inj (u u' : string) (p p' : Z) :
  tunnel_key u p = tunnel_key u' p' → u = u' ∧ p = p'.
Proof.
  unfold tunnel_key. intros H.
  apply colon_split in H as [-> H]; auto using Sprintf_d_no_colon.
  split; [done|]. unfold Sprintf_d in H. by apply (inj pretty) in H.
Qed.

(** A key of a user without a colon in the name starts with [u:] for no
    other user [u]. *)
Lemma prefix_same_user (u u' d r : string) :
  IndexByte u' ":" = -1 → IndexByte d ":" = -1 →
  u' +:+ ":" +:+ d = u +:+ ":" +:+ r → u = u'.
Proof.
  intros Hu' Hd. revert u Hu'.
  induction u' as [|b u' IH]; intros [|a u] Hu' H; simpl in H.
  - done.
  - injection H as <- H. by destruct (no_colon_app d u r Hd).
  - injection H as -> H. apply IndexByte_cons_none in Hu' as [Hu' _]. done.
  - injection H as -> H. apply IndexByte_cons_none in Hu' as [_ Hu'].
    f_equal. by apply IH.
Qed.

Lemma app_assoc_colon (u r : string) :
  (u +:+ ":") +:+ r = u +:+ ":" +:+ r.
Proof. induction u as [|a u IH]; simpl; [done|]. by rewrite IH. Qed.

Lemma key_prefix_user (u u' : string) (p : Z) :
  IndexByte u' ":" = -1 →
  HasPrefix (tunnel_key u' p) (u +:+ ":") = true → u = u'.
Proof.
  intros Hu' [r Hr]%HasPrefix_spec. rewrite app_assoc_colon in Hr.
  exact (prefix_same_user u u' (Sprintf_d p) r Hu' (Sprintf_d_no_colon p) Hr).
Qed.

Lemma own_key_prefix (u : string) (p : Z) :
  HasPrefix (tunnel_key u p) (u +:+ ":") = true.
Proof.
  apply HasPrefix_spec. exists (Sprintf_d p). by rewrite app_assoc_colon.
Qed.

Lemma user_host_inj (u u' : string) (s : SSHServer URL) :
  user_host u s = user_host u' s → u = u'.
Proof. unfold user_host. apply app_inj_r. Qed.

(** ** The clean-up on disconnect *)

Section Cleanup.

Variable username : string.

Implicit Types (s : SSHServer URL) (l : list (string * string)).

Lemma cleanup_fold_zone s l :
  zone (foldl (cleanup_visit username) s l) = zone s.
Proof.
  revert s. induction l as [|kv l IH]; intros s; simpl; [done|].
  rewrite IH. unfold cleanup_visit. by destruct (HasPrefix _ _).
Qed.

(** The clean-up removes entries and routes, and adds none. *)
Lemma cleanup_fold_sub s l k v :
  activeTunnelM (foldl (cleanup_visit username) s l) !! k = Some v →
  activeTunnelM s !! k = Some v.
Proof.
  revert s. induction l as [|kv l IH]; intros s; simpl; [done|].
  intros H%IH. unfold cleanup_visit in H.
  destruct (HasPrefix _ _); [|done]. simpl in H.
  by apply lookup_delete_Some in H as [_ H].
Qed.

Lemma cleanup_fold_gone s l k :
  activeTunnelM s !! k = None →
  activeTunnelM (foldl (cleanup_visit username) s l) !! k = None.
Proof.
  intros H. destruct (activeTunnelM (foldl _ s l) !! k) as [v|] eqn:E;
    [|done].
  apply cleanup_fold_sub in E. congruence.
Qed.

Lemma GetEntry_RemoveRoute_None host host' m :
  GetEntry host m = None → GetEntry host (RemoveRoute host' m) = None.
Proof.
  intros H. destruct (decide (host' = host)) as [->|Hne].
  - apply GetEntry_RemoveRoute_eq.
  - by rewrite GetEntry_RemoveRoute_ne.
Qed.

Lemma cleanup_fold_route_gone s l host :
  GetEntry host (manager s) = None →
  GetEntry host (manager (foldl (cleanup_visit username) s l)) = None.
Proof.
  revert s. induction l as [|kv l IH]; intros s H; simpl; [done|].
  apply IH. unfold cleanup_visit. destruct (HasPrefix _ _); [|done].
  simpl. by apply GetEntry_RemoveRoute_None.
Qed.

(** Entries whose key does not start with [username:] stay. *)
Lemma cleanup_fold_keep_key s l k :
  HasPrefix k (username +:+ ":") = false →
  activeTunnelM (foldl (cleanup_visit username) s l) !! k
  = activeTunnelM s !! k.
Proof.
  intros Hk. revert s.
  induction l as [|[k0 v0] l IH]; intros s; simpl; [done|].
  rewrite IH. unfold cleanup_visit. simpl.
  destruct (HasPrefix k0 _) eqn:E; [|done]. simpl.
  apply lookup_delete_ne. intros ->. congruence.
Qed.

(** A route stays when no visited entry with the prefix names its host. *)
Lemma cleanup_fold_keep_route s l host :
  (∀ k v, (k, v) ∈ l → HasPrefix k (username +:+ ":") = true → v ≠ host) →
  GetEntry host (manager (foldl (cleanup_visit username) s l))
  = GetEntry host (manager s).
Proof.
  revert s. induction l as [|[k v] l IH]; intros s Hl; simpl; [done|].
  rewrite IH.
  - unfold cleanup_visit. simpl.
    destruct (HasPrefix k _) eqn:E; [|done]. simpl.
    apply GetEntry_RemoveRoute_ne. apply (Hl k v); [left|done].
  - intros k' v' Hin. apply Hl. by right.
Qed.

(** Every visited entry with the prefix is deleted, and its route removed. *)
Lemma cleanup_fold_removes s l k v :
  (k, v) ∈ l → HasPrefix k (username +:+ ":") = true →
  activeTunnelM (foldl (cleanup_visit username) s l) !! k = None ∧
  GetEntry v (manager (foldl (cleanup_visit username) s l)) = None.
Proof.
  intros Hin Hk. revert s.
  induction l as [|kv l IH]; intros s; [by apply elem_of_nil in Hin|].
  apply elem_of_cons in Hin as [<-|Hin]; [|by apply IH].
  simpl. unfold cleanup_visit at 2 4. simpl. rewrite Hk. split.
  - apply cleanup_fold_gone. simpl. apply lookup_delete_eq.
  - apply cleanup_fold_route_gone. simpl. apply GetEntry_RemoveRoute_eq.
Qed.

Lemma cleanup_removes s k v :
  activeTunnelM s !! k = Some v → HasPrefix k (username +:+ ":") = true →
  activeTunnelM (cleanup username s) !! k = None ∧
  GetEntry v (manager (cleanup username s)) = None.
Proof.
  intros Hkv Hk. apply cleanup_fold_removes; [|done].
  by apply elem_of_map_to_list.
Qed.

Lemma cleanup_no_prefix_left s k :
  HasPrefix k (username +:+ ":") = true →
  activeTunnelM (cleanup username s) !! k = None.
Proof.
  intros Hk. destruct (activeTunnelM s !! k) as [v|] eqn:E.
  - by apply (cleanup_removes s k v).
  - by apply cleanup_fold_gone.
Qed.

End Cleanup.

(** ** What the handlers do to the state *)

Lemma no_true_reply (calls : list Call) :
  Forall (λ c, ∀ payload, c ≠ Reply true payload) calls →
  ¬ ∃ payload, Reply true payload ∈ calls.
Proof.
  intros H [payload Hin]. rewrite Forall_forall in H.
  by apply (H _ Hin payload).
Qed.

(** A positive reply to [tcpip-forward] comes with the route installed, the
    forward recorded, the listener open and its acceptor started. *)
Lemma forward_accepted username payload os now (w : World URL) :
  accepted (handle_forward url_Parse username payload os now w) →
  ∃ P m',
    os = Listening P ∧
    AddRoute url_Parse now (user_host username (server w))
             ("127.0.0.1:" +:+ Sprintf_d P) (manager (server w)) = Some m' ∧
    (handle_forward url_Parse username payload os now w).1 =
      {| server := {| manager := m'; zone := zone (server w);
                      activeTunnelM :=
                        <[tunnel_key username P := user_host username (server w)]>
                          (activeTunnelM (server w));
                      logRequests := logRequests (server w) |};
         net := {| listening := listening (net w) ∪ {[P]};
                   acceptors := <[P := ("localhost", "3000")]>
                                  (acceptors (net w)) |} |}.
Proof.
  unfold accepted, handle_forward, user_host, tunnel_key.
  destruct (parseForwardPort payload) as [ps|]; simpl.
  2:{ intros H. exfalso. revert H. apply no_true_reply.
      repeat constructor; discriminate. }
  destruct os as [|P]; simpl.
  { intros H. exfalso. revert H. apply no_true_reply.
    repeat constructor; discriminate. }
  destruct (AddRoute url_Parse now _ _ _) as [m'|] eqn:E; simpl.
  2:{ intros H. exfalso. revert H. apply no_true_reply.
      repeat constructor; discriminate. }
  intros _. by exists P, m'.
Qed.

(** [cancel-tcpip-forward] for a recorded key. *)
Lemma cancel_recorded username payload host (w : World URL) :
  ¬ malformed payload →
  activeTunnelM (server w) !! tunnel_key username (port_field payload)
  = Some host →
  handle_cancel username payload w =
    ({| server := {| manager := RemoveRoute host (manager (server w));
                     zone := zone (server w);
                     activeTunnelM :=
                       delete (tunnel_key username (port_field payload))
                              (activeTunnelM (server w));
                     logRequests := logRequests (server w) |};
        net := net w |},
     [Reply true []]).
Proof.
  intros Hok Hk. unfold handle_cancel.
  rewrite (parse_well_formed payload Hok).
  unfold tunnel_key in Hk. by rewrite Hk.
Qed.

Lemma handle_cancel_net username payload (w : World URL) :
  net (handle_cancel username payload w).1 = net w.
Proof.
  unfold handle_cancel. destruct (parseForwardPort payload); [|done].
  by destruct (activeTunnelM (server w) !! _).
Qed.

Lemma handle_request_zone username req os now (w : World URL) :
  zone (server (handle_request url_Parse username req os now w).1)
  = zone (server w).
Proof.
  unfold handle_request, handle_forward, handle_cancel.
  destruct (String.eqb _ "tcpip-forward").
  - destruct (parseForwardPort _); [|done]. destruct os; [done|].
    by destruct (AddRoute _ _ _ _ _).
  - destruct (String.eqb _ _); [|done].
    destruct (parseForwardPort _); [|done].
    by destruct (activeTunnelM (server w) !! _).
Qed.

Lemma step_zone (w : World URL) ev :
  zone (server (step url_Parse w ev)) = zone (server w).
Proof.
  destruct ev as [sid u req os now|sid u]; simpl.
  - apply handle_request_zone.
  - apply cleanup_fold_zone.
Qed.

Lemma step_bookkeeping_ok (w : World URL) ev :
  bookkeeping_ok (server w) → bookkeeping_ok (server (step url_Parse w ev)).
Proof.
  intros Hinv k v. unfold user_host. rewrite step_zone.
  destruct ev as [sid u req os now|sid u]; simpl.
  - unfold handle_request, handle_forward, handle_cancel.
    destruct (String.eqb _ "tcpip-forward").
    + destruct (parseForwardPort _); [|apply Hinv].
      destruct os as [|P]; [apply Hinv|].
      destruct (AddRoute _ _ _ _ _); [|apply Hinv]. simpl.
      intros [[<- <-]|[_ H]]%lookup_insert_Some; [|by apply Hinv].
      by exists u, P.
    + destruct (String.eqb _ _); [|apply Hinv].
      destruct (parseForwardPort _); [|apply Hinv].
      destruct (activeTunnelM (server w) !! _); [|apply Hinv]. simpl.
      intros [_ H]%lookup_delete_Some. by apply Hinv.
  - intros H%cleanup_fold_sub. by apply Hinv.
Qed.

Lemma step_acceptors_ok (w : World URL) ev :
  acceptors_ok (net w) → acceptors_ok (net (step url_Parse w ev)).
Proof.
  intros Hinv port hp.
  destruct ev as [sid u req os now|sid u]; simpl; [|apply Hinv].
  unfold handle_request, handle_forward, handle_cancel.
  destruct (String.eqb _ "tcpip-forward").
  - destruct (parseForwardPort _); [|apply Hinv].
    destruct os as [|P]; [apply Hinv|].
    destruct (AddRoute _ _ _ _ _); [|apply Hinv]. simpl.
    intros [[_ <-]|[_ H]]%lookup_insert_Some; [done|by apply (Hinv port)].
  - destruct (String.eqb _ _); [|apply Hinv].
    destruct (parseForwardPort _); [|apply Hinv].
    destruct (activeTunnelM (server w) !! _); apply Hinv.
Qed.

Lemma run_invariant (I : World URL → Prop) :
  (∀ w ev, I w → I (step url_Parse w ev)) →
  ∀ evs w, I w → I (run url_Parse w evs).
Proof.
  intros Hstep evs. induction evs as [|ev evs IH]; intros w Hw; [done|].
  simpl. apply IH, Hstep, Hw.
Qed.

Lemma run_bookkeeping_ok (zone0 : string) (lr : bool) evs :
  bookkeeping_ok (server (run url_Parse (boot URL zone0 lr) evs)).
Proof.
  apply (run_invariant (λ w, bookkeeping_ok (server w))).
  - apply step_bookkeeping_ok.
  - intros k v H. simpl in H. by rewrite lookup_empty in H.
Qed.

Lemma run_acceptors_ok (zone0 : string) (lr : bool) evs :
  acceptors_ok (net (run url_Parse (boot URL zone0 lr) evs)).
Proof.
  apply (run_invariant (λ w, acceptors_ok (net w))).
  - apply step_acceptors_ok.
  - intros k v H. simpl in H. by rewrite lookup_empty in H.
Qed.

(** ** Sessions *)

(** A run of [HandleConn] is the run of its events. *)
Lemma HandleConn_run (sid : nat) username reqs (w : World URL) :
  username ≠ EmptyString →
  HandleConn url_Parse username reqs w
  = run url_Parse w (session_events sid username reqs).
Proof.
  intros Hu. unfold HandleConn, run, session_events.
  apply String.eqb_neq in Hu. rewrite Hu. rewrite foldl_app. simpl.
  f_equal. revert w. induction reqs as [|r reqs IH]; intros w; simpl; [done|].
  apply IH.
Qed.

Lemma run_snoc (w : World URL) evs ev :
  run url_Parse w (evs ++ [ev])%list
  = step url_Parse (run url_Parse w evs) ev.
Proof. unfold run. by rewrite foldl_app. Qed.

Lemma pending_snoc u evs ev :
  pending u evs → (∀ sid, ev ≠ EvDisconnect sid u) →
  pending u (evs ++ [ev])%list.
Proof.
  intros (pre & post & sid & req & os & now & -> & Hpost) Hev.
  exists pre, (post ++ [ev])%list, sid, req, os, now. split.
  - by rewrite <- app_assoc.
  - intros sid' [Hin|Hin]%elem_of_app; [by apply (Hpost sid')|].
    apply list_elem_of_singleton in Hin. by apply (Hev sid').
Qed.

Lemma pending_new u evs sid req os now :
  pending u (evs ++ [EvRequest sid u req os now])%list.
Proof.
  exists evs, [], sid, req, os, now. split; [done|].
  intros sid'. apply not_elem_of_nil.
Qed.

(** Every recorded forward belongs to a user with a request still pending. *)
Lemma run_keys_pending (zone0 : string) (lr : bool) evs k v :
  activeTunnelM (server (run url_Parse (boot URL zone0 lr) evs)) !! k = Some v →
  ∃ x p, k = tunnel_key x p ∧ pending x evs.
Proof.
  revert k v. induction evs as [|ev evs IH] using rev_ind; intros k v.
  { simpl. by rewrite lookup_empty. }
  rewrite run_snoc. set (w := run url_Parse (boot URL zone0 lr) evs) in *.
  destruct ev as [sid u req os now|sid u]; cbn [step].
  - assert (∀ x, pending x evs →
                 pending x (evs ++ [EvRequest sid u req os now])%list)
      as Hkeep.
    { intros x Hx. apply pending_snoc; [done|]. discriminate. }
    unfold handle_request, handle_forward, handle_cancel.
    destruct (String.eqb _ "tcpip-forward").
    + destruct (parseForwardPort _);
        [|intros (x & p & -> & Hx)%IH; eauto].
      destruct os as [|P]; [intros (x & p & -> & Hx)%IH; eauto|].
      destruct (AddRoute _ _ _ _ _);
        [|intros (x & p & -> & Hx)%IH; eauto].
      simpl. intros [[<- <-]|[_ H]]%lookup_insert_Some.
      * exists u, P. split; [done|]. apply pending_new.
      * apply IH in H as (x & p & -> & Hx). eauto.
    + destruct (String.eqb _ _); [|intros (x & p & -> & Hx)%IH; eauto].
      destruct (parseForwardPort _); [|intros (x & p & -> & Hx)%IH; eauto].
      destruct (activeTunnelM (server w) !! _);
        [|intros (x & p & -> & Hx)%IH; eauto].
      simpl. intros [_ H]%lookup_delete_Some.
      apply IH in H as (x & p & -> & Hx). eauto.
  - simpl. intros H. pose proof H as H0.
    apply cleanup_fold_sub, IH in H as (x & p & -> & Hx).
    exists x, p. split; [done|]. apply pending_snoc; [done|].
    intros sid' [= _ <-].
    rewrite (cleanup_no_prefix_left u (server w)) in H0; [done|].
    apply own_key_prefix.
Qed.

(** Every route in the table is the host of some recorded forward. *)
Lemma run_routes_recorded (zone0 : string) (lr : bool) evs host :
  is_Some (GetEntry host
             (manager (server (run url_Parse (boot URL zone0 lr) evs)))) →
  ∃ k, activeTunnelM (server (run url_Parse (boot URL zone0 lr) evs)) !! k
       = Some host.
Proof.
  revert host. induction evs as [|ev evs IH] using rev_ind; intros host.
  { intros [e He]. exfalso. revert He. unfold GetEntry. cbn [run foldl].
    destruct (shards _ !! _) as [s|] eqn:Hs; [|done].
    apply lookup_replicate in Hs as [-> _]. unfold shard.
    by rewrite lookup_empty. }
  rewrite run_snoc.
  pose proof (run_bookkeeping_ok zone0 lr evs) as Hinv.
  set (w := run url_Parse (boot URL zone0 lr) evs) in *.
  destruct ev as [sid u req os now|sid u]; cbn [step].
  - unfold handle_request, handle_forward, handle_cancel.
    destruct (String.eqb _ "tcpip-forward").
    + destruct (parseForwardPort _); [|apply IH].
      destruct os as [|P]; [apply IH|].
      destruct (AddRoute _ _ _ _ _) as [m'|] eqn:Hadd; [|apply IH].
      cbn [fst server manager activeTunnelM].
      fold (user_host u (server w)) in *. fold (tunnel_key u P).
      destruct (decide (user_host u (server w) = host)) as [<-|Hne].
      * intros _. exists (tunnel_key u P). apply lookup_insert_eq.
      * rewrite (GetEntry_AddRoute_ne _ _ _ _ _ _ Hne Hadd).
        intros [k Hk]%IH. exists k. rewrite lookup_insert_ne; [done|].
        intros <-. apply Hinv in Hk as (x & p & [<- _]%tunnel_key_inj & Hv).
        by rewrite Hv in Hne.
    + destruct (String.eqb _ _); [|apply IH].
      destruct (parseForwardPort _); [|apply IH].
      destruct (activeTunnelM (server w) !! _) as [h0|] eqn:Hk0; [|apply IH].
      cbn [fst with_server server manager activeTunnelM].
      destruct (decide (h0 = host)) as [->|Hne].
      * rewrite GetEntry_RemoveRoute_eq. by intros [? ?].
      * rewrite GetEntry_RemoveRoute_ne by done.
        intros [k Hk]%IH. exists k. rewrite lookup_delete_ne; [done|].
        intros <-. congruence.
  - cbn [disconnect with_server server].
    intros [e He].
    destruct (GetEntry host (manager (server w))) as [e0|] eqn:E0.
    2:{ apply (cleanup_fold_route_gone u) with (l := map_to_list
          (activeTunnelM (server w))) in E0.
        unfold cleanup in He. congruence. }
    destruct (IH host) as [k Hk]; [by rewrite E0|].
    exists k. destruct (HasPrefix k (u +:+ ":")) eqn:Hpre.
    + destruct (cleanup_removes u (server w) k host Hk Hpre) as [_ Hgone].
      congruence.
    + unfold cleanup. by rewrite cleanup_fold_keep_key.
Qed.

(** Once every session has ended, no forward is recorded and no host has a
    route. *)
Lemma nothing_left_after_sessions (zone0 : string) (lr : bool) evs :
  all_sessions_ended evs →
  let w := run url_Parse (boot URL zone0 lr) evs in
  activeTunnelM (server w) = ∅ ∧
  ∀ host, GetEntry host (manager (server w)) = None.
Proof.
  intros Hend w.
  assert (activeTunnelM (server w) = ∅) as Hmap.
  { apply map_empty. intros k.
    destruct (activeTunnelM (server w) !! k) as [v|] eqn:Hk; [|done].
    apply run_keys_pending in Hk
      as (x & p & _ & pre & post & sid & req & os & now & Hevs & Hpost).
    apply Hend in Hevs. by destruct (Hpost sid). }
  split; [done|]. intros host.
  destruct (GetEntry host (manager (server w))) as [e|] eqn:He; [|done].
  destruct (run_routes_recorded zone0 lr evs host) as [k Hk].
  { fold w. by rewrite He. }
  fold w in Hk. rewrite Hmap in Hk. by rewrite lookup_empty in Hk.
Qed.

Lemma cleanup_fold_partitioned (u : string) (s : SSHServer URL) l :
  partitioned (manager s) →
  partitioned (manager (foldl (cleanup_visit u) s l)).
Proof.
  revert s. induction l as [|kv l IH]; intros s Hs; simpl; [done|].
  apply IH. unfold cleanup_visit. destruct (HasPrefix _ _); [|done].
  simpl. by apply partitioned_RemoveRoute.
Qed.

Lemma step_partitioned (w : World URL) ev :
  partitioned (manager (server w)) →
  partitioned (manager (server (step url_Parse w ev))).
Proof.
  intros Hinv. destruct ev as [sid u req os now|sid u]; simpl.
  - unfold handle_request, handle_forward, handle_cancel.
    destruct (String.eqb _ "tcpip-forward").
    + destruct (parseForwardPort _); [|done]. destruct os as [|P]; [done|].
      destruct (AddRoute _ _ _ _ _) eqn:E; [|done]. simpl.
      eapply partitioned_AddRoute; eauto.
    + destruct (String.eqb _ _); [|done].
      destruct (parseForwardPort _); [|done].
      destruct (activeTunnelM (server w) !! _); [|done]. simpl.
      by apply partitioned_RemoveRoute.
  - by apply cleanup_fold_partitioned.
Qed.

(** X14: once every session has ended, the bookkeeping and every shard of
    the route table are empty. *)
Lemma table_empty_after_sessions (zone0 : string) (lr : bool) evs :
  all_sessions_ended evs →
  let w := run url_Parse (boot URL zone0 lr) evs in
  activeTunnelM (server w) = ∅ ∧
  ∀ (i : nat) (s : shard URL),
    shards (manager (server w)) !! i = Some s → s = ∅.
Proof.
  intros Hend w.
  destruct (nothing_left_after_sessions zone0 lr evs Hend) as [Hmap Hroutes].
  fold w in Hmap, Hroutes. split; [done|]. intros i s Hs.
  unfold shard in *. apply map_empty. intros host.
  destruct (s !! host) as [e|] eqn:He; [|done].
  assert (partitioned (manager (server w))) as Hpart.
  { apply (run_invariant (λ w, partitioned (manager (server w)))).
    - apply step_partitioned.
    - apply partitioned_New. }
  assert (i = Z.to_nat (shardIdx host)) as ->.
  { apply Hpart. exists s. split; [done|]. unfold shard. by rewrite He. }
  specialize (Hroutes host). unfold GetEntry, shard in Hroutes.
  rewrite Hs in Hroutes. congruence.
Qed.

(** ** Forwards, routes and listeners *)

(** C10: the route of a forward is keyed by [username.zone] whatever the
    port.  When a user holds two accepted forwards on ports [P1] and [P2],
    both are recorded, the table holds one entry for the user and the
    second install has replaced the first; cancelling either port removes
    that entry while the other forward stays recorded. *)
Theorem C10_one_route_per_user username pay1 pay2 P1 P2 now1 now2
    (w : World URL) :
  wf_manager (manager (server w)) →
  ¬ malformed pay1 → ¬ malformed pay2 → P1 ≠ P2 →
  let host := user_host username (server w) in
  let out1 := handle_request url_Parse username (forward_request pay1)
                             (Listening P1) now1 w in
  let out2 := handle_request url_Parse username (forward_request pay2)
                             (Listening P2) now2 out1.1 in
  accepted out1 → accepted out2 →
  let s2 := server out2.1 in
  activeTunnelM s2 !! tunnel_key username P1 = Some host ∧
  activeTunnelM s2 !! tunnel_key username P2 = Some host ∧
  (∃ e1 e2,
     GetEntry host (manager (server out1.1)) = Some e1 ∧
     url_Parse ("http://127.0.0.1:" +:+ Sprintf_d P1) = Some (TargetURL e1) ∧
     CreatedAt e1 = now1 ∧
     GetEntry host (manager s2) = Some e2 ∧
     url_Parse ("http://127.0.0.1:" +:+ Sprintf_d P2) = Some (TargetURL e2) ∧
     CreatedAt e2 = now2) ∧
  ∀ c os now, ¬ malformed c →
    let s3 := server (handle_request url_Parse username (cancel_request c)
                                     os now out2.1).1 in
    (port_field c = P1 →
     GetEntry host (manager s3) = None ∧
     activeTunnelM s3 !! tunnel_key username P1 = None ∧
     activeTunnelM s3 !! tunnel_key username P2 = Some host) ∧
    (port_field c = P2 →
     GetEntry host (manager s3) = None ∧
     activeTunnelM s3 !! tunnel_key username P2 = None ∧
     activeTunnelM s3 !! tunnel_key username P1 = Some host).
Proof.
  intros Hwf Hok1 Hok2 Hne host out1 out2 Hacc1 Hacc2 s2.
  assert (tunnel_key username P1 ≠ tunnel_key username P2) as Hk.
  { intros [_ ?]%tunnel_key_inj. done. }
  subst s2 out2 out1. rewrite !handle_forward_eq in *.
  destruct (forward_accepted _ _ _ _ _ Hacc1) as (Q1 & m1 & HQ1 & Hadd1 & Hw1).
  injection HQ1 as <-. fold host in Hadd1, Hw1.
  rewrite Hw1 in Hacc2 |- *. clear Hacc1 Hw1.
  destruct (forward_accepted _ _ _ _ _ Hacc2) as (Q2 & m2 & HQ2 & Hadd2 & Hw2).
  injection HQ2 as <-.
  rewrite Hw2. clear Hacc2 Hw2.
  unfold user_host in Hadd2 |- *.
  cbn [server manager zone activeTunnelM net fst] in Hadd2 |- *.
  fold (user_host username (server w)) in Hadd2 |- *.
  fold host in Hadd2 |- *.
  pose proof (wf_AddRoute _ _ _ _ _ Hwf Hadd1) as Hwf1.
  destruct (GetEntry_AddRoute_eq _ _ _ _ _ Hwf Hadd1) as (u1 & Hu1 & He1).
  destruct (GetEntry_AddRoute_eq _ _ _ _ _ Hwf1 Hadd2) as (u2 & Hu2 & He2).
  rewrite normalize_loopback in Hu1, Hu2.
  split; [by rewrite lookup_insert_ne, lookup_insert_eq|].
  split; [by rewrite lookup_insert_eq|].
  split; [by exists (new_entry now1 u1), (new_entry now2 u2)|].
  intros c os now Hc. rewrite handle_cancel_eq.
  split; intros Hp.
  - rewrite (cancel_recorded username c host); [|done|].
    2:{ cbn [server activeTunnelM]. rewrite Hp.
        by rewrite lookup_insert_ne, lookup_insert_eq. }
    cbn [server manager activeTunnelM fst]. rewrite Hp.
    split; [apply GetEntry_RemoveRoute_eq|].
    split; [apply lookup_delete_eq|].
    by rewrite lookup_delete_ne, lookup_insert_eq.
  - rewrite (cancel_recorded username c host); [|done|].
    2:{ cbn [server activeTunnelM]. rewrite Hp. by rewrite lookup_insert_eq. }
    cbn [server manager activeTunnelM fst]. rewrite Hp.
    split; [apply GetEntry_RemoveRoute_eq|].
    split; [apply lookup_delete_eq|].
    by rewrite lookup_delete_ne, lookup_insert_ne, lookup_insert_eq.
Qed.

Lemma parse_Some (payload : list byte) (ps : string) :
  parseForwardPort payload = Some ps → ps = Sprintf_d (port_field payload).
Proof.
  unfold parseForwardPort, port_field, addr_len.
  destruct (Z.of_nat (length payload) <? 4); [done|].
  destruct (Z.of_nat (length payload) <? _); [done|].
  by intros [= <-].
Qed.

(** C8, as the code has it: the bookkeeping is one map of the server, shared
    by every session and keyed by [user:port].  In every state the server
    reaches, a [cancel-tcpip-forward] or the clean-up on disconnect of a
    session of user [u] leaves in place every entry recorded for another
    user [u'] whose name holds no colon, and the route of [u']. *)
Theorem C8_other_users_untouched (zone0 : string) (lr : bool) evs ev
    (u u' : string) (P : Z) :
  let w := run url_Parse (boot URL zone0 lr) evs in
  let w' := step url_Parse w ev in
  u ≠ u' →
  IndexByte u' ":" = -1 →
  (∃ sid, ev = EvDisconnect sid u) ∨
  (∃ sid payload os now, ev = EvRequest sid u (cancel_request payload) os now) →
  activeTunnelM (server w') !! tunnel_key u' P
  = activeTunnelM (server w) !! tunnel_key u' P ∧
  GetEntry (user_host u' (server w)) (manager (server w'))
  = GetEntry (user_host u' (server w)) (manager (server w)).
Proof.
  intros w w' Hne Hu' Hev.
  pose proof (run_bookkeeping_ok zone0 lr evs) as Hinv. fold w in Hinv.
  assert (∀ p, HasPrefix (tunnel_key u' p) (u +:+ ":") = false) as Hpre.
  { intros p. destruct (HasPrefix _ _) eqn:E; [|done].
    by apply key_prefix_user in E. }
  destruct Hev as [[sid ->]|(sid & payload & os & now & ->)]; subst w'.
  - simpl. split.
    + apply cleanup_fold_keep_key, Hpre.
    + apply cleanup_fold_keep_route. intros k v Hkv Hk Hv.
      apply elem_of_map_to_list, Hinv in Hkv as (x & p & -> & ->).
      apply user_host_inj in Hv as ->. by rewrite Hpre in Hk.
  - cbn [step]. rewrite handle_cancel_eq. unfold handle_cancel.
    destruct (parseForwardPort payload) as [ps|] eqn:Hps; [|done].
    apply parse_Some in Hps as ->.
    fold (tunnel_key u (port_field payload)).
    destruct (activeTunnelM (server w) !! tunnel_key u (port_field payload))
      as [hostStr|] eqn:Hk; [|done].
    apply Hinv in Hk as (x & p & Hx & ->).
    apply tunnel_key_inj in Hx as [<- _].
    cbn [fst with_server server manager activeTunnelM]. split.
    + apply lookup_delete_ne. by intros [? _]%tunnel_key_inj.
    + apply GetEntry_RemoveRoute_ne. by intros ?%user_host_inj.
Qed.

(** C1, at the input where the code leaves the claim: after an accepted
    forward on port [P], the matching [cancel-tcpip-forward] and the
    clean-up on disconnect both remove the route and the bookkeeping entry,
    and both leave the listener on [P] open: neither calls [Close] on it,
    and the network state is what it was after the forward. *)
Theorem C1_listener_left_open username payload c (P : Z) os now now'
    (w : World URL) :
  wf_manager (manager (server w)) →
  ¬ malformed payload → ¬ malformed c → port_field c = P →
  let host := user_host username (server w) in
  let out := handle_request url_Parse username (forward_request payload)
                            (Listening P) now w in
  accepted out →
  let cancelled := handle_request url_Parse username (cancel_request c)
                                  os now' out.1 in
  let closed := disconnect username out.1 in
  (GetEntry host (manager (server cancelled.1)) = None ∧
   activeTunnelM (server cancelled.1) !! tunnel_key username P = None ∧
   GetEntry host (manager (server closed)) = None ∧
   activeTunnelM (server closed) !! tunnel_key username P = None) ∧
  (P ∈ listening (net cancelled.1) ∧ cancelled.2 = [Reply true []] ∧
   P ∈ listening (net closed) ∧
   net cancelled.1 = net out.1 ∧ net closed = net out.1).
Proof.
  intros Hwf Hok Hc HP host out Hacc cancelled closed.
  subst cancelled closed out. rewrite handle_forward_eq in *.
  rewrite handle_cancel_eq.
  destruct (forward_accepted _ _ _ _ _ Hacc) as (Q & m' & HQ & Hadd & Hw).
  injection HQ as <-. fold host in Hadd, Hw. rewrite Hw. clear Hacc Hw.
  set (s1 := {| manager := m'; zone := zone (server w);
                activeTunnelM := <[tunnel_key username P := host]>
                                   (activeTunnelM (server w));
                logRequests := logRequests (server w) |}).
  assert (activeTunnelM s1 !! tunnel_key username P = Some host) as Hk
    by apply lookup_insert_eq.
  rewrite (cancel_recorded username c host); [|done|].
  2:{ cbn [server]. by rewrite HP. }
  cbn [fst snd server manager activeTunnelM net listening]. rewrite HP.
  destruct (cleanup_removes username s1 _ _ Hk (own_key_prefix username P))
    as [Hgone Hroute].
  split.
  - split; [apply GetEntry_RemoveRoute_eq|]. split; [apply lookup_delete_eq|].
    unfold disconnect. cbn [with_server server]. by split.
  - assert (P ∈ listening (net w) ∪ {[P]}) as HPin.
    { apply elem_of_union_r. by apply elem_of_singleton. }
    unfold disconnect. cbn [with_server net listening]. done.
Qed.

(** C2, at the input where the code leaves the claim: for a connection
    accepted on any listener the server ever opened, the acceptor dials
    the TCP address [localhost:3000] and opens no channel on the SSH
    session. *)
Theorem C2_acceptor_dials (zone0 : string) (lr : bool) evs (port : Z)
    (dialed : bool) (calls : list Call) :
  accept_conn port dialed (run url_Parse (boot URL zone0 lr) evs) = Some calls →
  head calls = Some (net_Dial "tcp" "localhost:3000") ∧
  ∀ name data, OpenChannel name data ∉ calls.
Proof.
  unfold accept_conn. case_bool_decide; [|done].
  destruct (acceptors _ !! port) as [[h p]|] eqn:E; [|done].
  apply run_acceptors_ok in E. injection E as -> ->.
  intros [= <-]. split; [done|].
  intros name data Hin. unfold serve_accepted in Hin.
  destruct dialed;
    repeat (apply elem_of_cons in Hin as [Hin|Hin]; [discriminate|]);
    by apply elem_of_nil in Hin.
Qed.

End Properties.

(** * Further properties *)

Section MoreProperties.

Context {URL : Type} (url_Parse : string → option URL).
Context (url_String : URL → string).

Implicit Types (m : ShardedRouteManager URL) (host target : string).

Local Arguments String.append !_ _ / : simpl nomatch.

(** ** The algebra of the route table *)

Lemma manager_eta m :
  {| shards := shards m; mgr_logRequests := mgr_logRequests m |} = m.
Proof. by destruct m. Qed.

Lemma apply_op_alter m o :
  apply_op url_Parse m o =
  {| shards := alter (op_shard url_Parse o)
                     (Z.to_nat (shardIdx (op_host o))) (shards m);
     mgr_logRequests := mgr_logRequests m |}.
Proof.
  destruct o as [now h t|h]; simpl; [|done].
  unfold AddRoute. destruct (url_Parse (normalize t)); simpl; [done|].
  rewrite list_alter_id by done. by rewrite manager_eta.
Qed.

Lemma op_shard_comm o1 o2 (s : shard URL) :
  op_host o1 ≠ op_host o2 →
  op_shard url_Parse o1 (op_shard url_Parse o2 s)
  = op_shard url_Parse o2 (op_shard url_Parse o1 s).
Proof.
  destruct o1 as [n1 h1 t1|h1], o2 as [n2 h2 t2|h2]; simpl; intros Hne;
    repeat (destruct (url_Parse _)); try done; unfold shard in *.
  - by apply insert_insert_ne.
  - by rewrite delete_insert_ne.
  - by rewrite delete_insert_ne.
  - apply delete_delete.
Qed.

Lemma alter_comm (l : list (shard URL)) (f g : shard URL → shard URL) i j :
  (∀ s, f (g s) = g (f s)) →
  alter f i (alter g j l) = alter g j (alter f i l).
Proof.
  intros Hfg. destruct (decide (i = j)) as [->|Hne].
  - rewrite !list_alter_alter_eq. apply list_alter_ext; [|done].
    intros s _. apply Hfg.
  - by apply list_alter_alter_ne.
Qed.

Lemma RemoveRoute_comm h1 h2 m :
  RemoveRoute h1 (RemoveRoute h2 m) = RemoveRoute h2 (RemoveRoute h1 m).
Proof.
  unfold RemoveRoute. simpl. f_equal. apply alter_comm.
  intros s. unfold shard in *. apply delete_delete.
Qed.

(** X1: operations on two different hosts commute: installs and removals
    on one host and on another give the same table in either order. *)
Theorem X1_ops_on_other_hosts_commute m o1 o2 :
  op_host o1 ≠ op_host o2 →
  apply_op url_Parse (apply_op url_Parse m o1) o2
  = apply_op url_Parse (apply_op url_Parse m o2) o1.
Proof.
  intros Hne. rewrite !apply_op_alter. simpl. f_equal.
  apply alter_comm. intros s. symmetry. by apply op_shard_comm.
Qed.

(** X2: [RemoveRoute] is idempotent, and removing a host that [GetEntry]
    does not find leaves the table as it is. *)
Theorem X2_RemoveRoute_idempotent host m :
  RemoveRoute host (RemoveRoute host m) = RemoveRoute host m ∧
  (GetEntry host m = None → RemoveRoute host m = m).
Proof.
  split.
  - unfold RemoveRoute. simpl. f_equal. rewrite list_alter_alter_eq.
    apply list_alter_ext; [|done]. intros s _. simpl.
    unfold shard in *. apply delete_delete_eq.
  - intros Hmiss. destruct m as [sh lr].
    unfold RemoveRoute, GetEntry in *. simpl in *. f_equal.
    apply list_eq. intros j. rewrite list_lookup_alter.
    case_decide as Hj; [|done]. subst j.
    destruct (sh !! Z.to_nat (shardIdx host)) as [s|]; [|done].
    simpl. f_equal. unfold shard in *. by apply delete_id.
Qed.

(** X3: a second [AddRoute] for a host replaces the first altogether: the
    table is the one the second install alone would have given. *)
Theorem X3_AddRoute_overwrites now1 now2 host t1 t2 m m1 :
  AddRoute url_Parse now1 host t1 m = Some m1 →
  AddRoute url_Parse now2 host t2 m1 = AddRoute url_Parse now2 host t2 m.
Proof.
  unfold AddRoute. destruct (url_Parse (normalize t1)) as [u1|]; [|done].
  intros [= <-]. destruct (url_Parse (normalize t2)) as [u2|]; [|done].
  simpl. do 2 f_equal. rewrite list_alter_alter_eq.
  apply list_alter_ext; [|done]. intros s _. simpl.
  unfold shard in *. apply insert_insert_eq.
Qed.

(** ** The snapshot *)

Lemma map_fold_listing (out : gmap string string) (s : shard URL) :
  map_fold (λ (k : string) (v : UpstreamEntry URL) (out : gmap string string),
              <[k := url_String (TargetURL v)]> out) out s
  = ((λ v, url_String (TargetURL v)) <$> s) ∪ out.
Proof.
  unfold shard in *.
  apply (map_fold_weak_ind (λ r (s : gmap string (UpstreamEntry URL)),
           r = ((λ v, url_String (TargetURL v)) <$> s) ∪ out)).
  - by rewrite fmap_empty, (left_id_L ∅ (∪)).
  - intros k v s' r _ ->. by rewrite fmap_insert, insert_union_l.
Qed.

Lemma listing_lookup (l : list (shard URL)) (j : nat) host :
  (∀ i s, l !! i = Some s → is_Some (s !! host) → i = j) →
  foldl (λ (out : gmap string string) (s : shard URL),
           map_fold (λ (k : string) (v : UpstreamEntry URL)
                       (out : gmap string string),
                       <[k := url_String (TargetURL v)]> out) out s)
        ∅ l !! host
  = (λ v, url_String (TargetURL v)) <$> (l !! j ≫= (λ s : shard URL, s !! host)).
Proof.
  induction l as [|s l IH] using rev_ind; intros Huniq.
  { simpl. by rewrite lookup_empty. }
  rewrite foldl_app. simpl. rewrite map_fold_listing, lookup_union, lookup_fmap.
  rewrite IH.
  2:{ intros i s' Hi. apply Huniq. by apply lookup_app_l_Some. }
  unfold shard in *.
  destruct (s !! host) as [e|] eqn:He; simpl.
  - assert (length l = j) as <-.
    { apply (Huniq (length l) s); [|by rewrite He].
      by rewrite lookup_app_r, Nat.sub_diag by lia. }
    rewrite lookup_app_r, Nat.sub_diag by lia. simpl. rewrite He. simpl.
    by rewrite lookup_ge_None_2 by lia.
  - rewrite (left_id_L None (∪)).
    destruct (decide (j < length l)%nat).
    + by rewrite lookup_app_l by lia.
    + rewrite (lookup_ge_None_2 l j) by lia. simpl.
      destruct (decide (j = length l)) as [->|].
      * rewrite lookup_app_r, Nat.sub_diag by lia. simpl. by rewrite He.
      * rewrite lookup_ge_None_2; [done|]. rewrite List.length_app. simpl. lia.
Qed.

Lemma ListRoutes_lookup m host :
  partitioned m →
  ListRoutes url_String m !! host
  = (λ v, url_String (TargetURL v)) <$> GetEntry host m.
Proof.
  intros Hpart. unfold ListRoutes, GetEntry.
  rewrite (listing_lookup _ (Z.to_nat (shardIdx host))).
  - by destruct (shards m !! Z.to_nat (shardIdx host)).
  - intros i s Hs Hh. apply Hpart. by exists s.
Qed.

(** X4: in every table built from an empty one, the snapshot of
    [ListRoutes] lists a host exactly when [GetEntry] finds it, with the
    text of the target URL of that entry. *)
Theorem X4_ListRoutes_agrees_with_GetEntry (logRequests : bool) ops host :
  let m := foldl (apply_op url_Parse)
                 (NewShardedRouteManager URL logRequests) ops in
  ListRoutes url_String m !! host
  = (λ v, url_String (TargetURL v)) <$> GetEntry host m.
Proof. intros m. apply ListRoutes_lookup, partitioned_ops. Qed.

(** X5: the snapshot follows the operations: it is empty for a new table,
    an install that succeeds sets the entry of its host to the text of the
    parsed URL and changes no other, and a removal deletes the entry of its
    host and no other. *)
Theorem X5_ListRoutes_tracks_operations (logRequests : bool) ops :
  let m := foldl (apply_op url_Parse)
                 (NewShardedRouteManager URL logRequests) ops in
  ListRoutes url_String (NewShardedRouteManager URL logRequests) = ∅ ∧
  (∀ now host target m' u,
     AddRoute url_Parse now host target m = Some m' →
     url_Parse (normalize target) = Some u →
     ListRoutes url_String m'
     = <[host := url_String u]> (ListRoutes url_String m)) ∧
  (∀ host, ListRoutes url_String (RemoveRoute host m)
           = delete host (ListRoutes url_String m)).
Proof.
  intros m.
  assert (partitioned m) as Hpart by apply partitioned_ops.
  assert (wf_manager m) as Hwf by apply wf_ops, wf_New.
  split; [|split].
  - apply map_eq. intros h.
    rewrite ListRoutes_lookup by apply partitioned_New.
    rewrite lookup_empty. unfold GetEntry.
    destruct (shards _ !! _) as [s|] eqn:Hs; [|done].
    change (replicate (Z.to_nat routeShards) (∅ : shard URL)
              !! Z.to_nat (shardIdx h) = Some s) in Hs.
    apply lookup_replicate in Hs as [-> _]. unfold shard.
    by rewrite lookup_empty.
  - intros now host target m' u Hadd Hu. apply map_eq. intros h.
    rewrite ListRoutes_lookup by (eapply partitioned_AddRoute; eauto).
    destruct (GetEntry_AddRoute_eq url_Parse _ _ _ _ _ Hwf Hadd)
      as (u' & Hu' & He).
    assert (u' = u) as -> by congruence.
    destruct (decide (host = h)) as [<-|Hne].
    + by rewrite He, lookup_insert_eq.
    + rewrite (GetEntry_AddRoute_ne url_Parse _ _ _ _ _ _ Hne Hadd).
      rewrite lookup_insert_ne by done. by rewrite ListRoutes_lookup.
  - intros host. apply map_eq. intros h.
    rewrite ListRoutes_lookup by by apply partitioned_RemoveRoute.
    destruct (decide (host = h)) as [<-|Hne].
    + by rewrite GetEntry_RemoveRoute_eq, lookup_delete_eq.
    + rewrite GetEntry_RemoveRoute_ne, lookup_delete_ne by done.
      by rewrite ListRoutes_lookup.
Qed.

(** ** The shard hash *)

Lemma mod256_lxor (a b : Z) :
  Z.lxor a b mod 2 ^ 8 = Z.lxor (a mod 2 ^ 8) (b mod 2 ^ 8).
Proof.
  apply Z.bits_inj'. intros i Hi.
  rewrite Z.lxor_spec, !Z.testbit_mod_pow2, Z.lxor_spec by lia.
  by destruct (i <? 8).
Qed.

Lemma lxor_cancel_r (x y c : Z) : Z.lxor x c = Z.lxor y c → x = y.
Proof.
  intros H. apply (f_equal (λ z, Z.lxor z c)) in H.
  by rewrite !Z.lxor_assoc, !Z.lxor_nilpotent, !Z.lxor_0_r in H.
Qed.

Lemma lxor_cancel_l (x a b : Z) : Z.lxor x a = Z.lxor x b → a = b.
Proof. rewrite !(Z.lxor_comm x). apply lxor_cancel_r. Qed.

Lemma byte_of_char_range (c : ascii) : 0 ≤ byte_of_char c < 2 ^ 8.
Proof.
  unfold byte_of_char. pose proof (N_ascii_bounded c). lia.
Qed.

Lemma byte_of_char_inj (a b : ascii) : byte_of_char a = byte_of_char b → a = b.
Proof.
  unfold byte_of_char. intros H%(inj Z.of_N).
  by rewrite <- (ascii_N_embedding a), <- (ascii_N_embedding b), H.
Qed.

(** The low byte of one round of the loop. *)
Lemma round_low (h : Z) (c : ascii) :
  Z.lxor (wrap32 (h * 16777619)) (byte_of_char c) mod 2 ^ 8
  = Z.lxor ((h mod 2 ^ 8 * 16777619) mod 2 ^ 8) (byte_of_char c).
Proof.
  rewrite mod256_lxor. unfold wrap32.
  rewrite Z.mod_mod_divide by (exists (2 ^ 24); lia).
  rewrite Z.mul_mod_idemp_l by lia.
  by rewrite (Z.mod_small (byte_of_char c)) by apply byte_of_char_range.
Qed.

(** Multiplying by the constant is invertible modulo 256. *)
Lemma multiplier_inj (h1 h2 : Z) :
  (h1 * 16777619) mod 2 ^ 8 = (h2 * 16777619) mod 2 ^ 8 →
  h1 mod 2 ^ 8 = h2 mod 2 ^ 8.
Proof.
  intros H.
  assert (∀ h, h mod 2 ^ 8 = ((h * 16777619) mod 2 ^ 8 * 155) mod 2 ^ 8) as Hinv.
  { intros h. rewrite Z.mul_mod_idemp_l by lia.
    replace (h * 16777619 * 155) with (h + h * 10158324 * 2 ^ 8) by lia.
    by rewrite Z.mod_add by lia. }
  by rewrite (Hinv h1), (Hinv h2), H.
Qed.

Lemma loop_low (key : string) (h1 h2 : Z) :
  shardIdx_loop key h1 mod 2 ^ 8 = shardIdx_loop key h2 mod 2 ^ 8 ↔
  h1 mod 2 ^ 8 = h2 mod 2 ^ 8.
Proof.
  revert h1 h2. induction key as [|c key IH]; intros h1 h2; simpl; [done|].
  rewrite IH, !round_low. split.
  - intros H%lxor_cancel_r. apply multiplier_inj.
    by rewrite <- !(Z.mul_mod_idemp_l h1), <- !(Z.mul_mod_idemp_l h2) by lia.
  - by intros ->.
Qed.

Lemma loop_app (pre key : string) (h : Z) :
  shardIdx_loop (pre +:+ key) h = shardIdx_loop key (shardIdx_loop pre h).
Proof. revert h. induction pre as [|c pre IH]; intros h; simpl; auto. Qed.

Lemma shardIdx_low (key : string) : shardIdx key = shardIdx_loop key 0 mod 2 ^ 8.
Proof.
  unfold shardIdx, wrap8, routeShards. change 256 with (2 ^ 8).
  apply Z.mod_mod. lia.
Qed.

(** X6: two hosts that differ in exactly one byte lie in different
    shards. *)
Theorem X6_one_byte_apart_other_shard (pre suf : string) (a b : ascii) :
  a ≠ b →
  shardIdx (pre +:+ String a suf) ≠ shardIdx (pre +:+ String b suf).
Proof.
  intros Hab H. rewrite !shardIdx_low, !loop_app in H. simpl in H.
  apply loop_low in H. rewrite !round_low in H.
  apply lxor_cancel_l, byte_of_char_inj in H. done.
Qed.

(** ** Payloads *)

Lemma byteZ_inj (a b : byte) : byteZ a = byteZ b → a = b.
Proof.
  unfold byteZ. intros H%(inj Z.of_N).
  assert (Some a = Some b) as [= ->]; [|done].
  by rewrite <- (Byte.of_to_N a), <- (Byte.of_to_N b), H.
Qed.

Lemma byte_of_Z_byteZ (b : byte) : byte_of_Z (byteZ b) = b.
Proof.
  apply byteZ_inj. rewrite byteZ_of_Z. apply Z.mod_small.
  pose proof (byteZ_range b). lia.
Qed.

(** Writing back what [Uint32] read gives the four bytes. *)
Lemma PutUint32_Uint32 (b0 b1 b2 b3 : byte) :
  BigEndian_PutUint32 (BigEndian_Uint32 [b0; b1; b2; b3]) = [b0; b1; b2; b3].
Proof.
  rewrite Uint32_value. unfold BigEndian_PutUint32.
  pose proof (byteZ_range b0). pose proof (byteZ_range b1).
  pose proof (byteZ_range b2). pose proof (byteZ_range b3).
  set (v := byteZ b0 * 2 ^ 24 + byteZ b1 * 2 ^ 16 + byteZ b2 * 2 ^ 8 + byteZ b3).
  assert (∀ x b, x mod 2 ^ 8 = byteZ b → byte_of_Z x = b) as Hb.
  { intros x b Hx. apply byteZ_inj. by rewrite byteZ_of_Z. }
  rewrite !Z.shiftr_div_pow2 by lia.
  assert (v / 2 ^ 24 = byteZ b0) as ->.
  { symmetry. apply (Z.div_unique v _ _
      (byteZ b1 * 2 ^ 16 + byteZ b2 * 2 ^ 8 + byteZ b3)); unfold v; lia. }
  assert (v / 2 ^ 16 = byteZ b0 * 2 ^ 8 + byteZ b1) as ->.
  { symmetry. apply (Z.div_unique v _ _ (byteZ b2 * 2 ^ 8 + byteZ b3));
      unfold v; lia. }
  assert (v / 2 ^ 8 = byteZ b0 * 2 ^ 16 + byteZ b1 * 2 ^ 8 + byteZ b2) as ->.
  { symmetry. apply (Z.div_unique v _ _ (byteZ b3)); unfold v; lia. }
  f_equal; [|f_equal; [|f_equal; [|f_equal]]]; apply Hb.
  - apply Z.mod_small. lia.
  - rewrite Z.add_comm, Z.mod_add by lia. apply Z.mod_small. lia.
  - replace (byteZ b0 * 2 ^ 16 + byteZ b1 * 2 ^ 8 + byteZ b2)
      with (byteZ b2 + (byteZ b0 * 2 ^ 8 + byteZ b1) * 2 ^ 8) by lia.
    rewrite Z.mod_add by lia. apply Z.mod_small. lia.
  - unfold v.
    replace (byteZ b0 * 2 ^ 24 + byteZ b1 * 2 ^ 16 + byteZ b2 * 2 ^ 8 + byteZ b3)
      with (byteZ b3 + (byteZ b0 * 2 ^ 16 + byteZ b1 * 2 ^ 8 + byteZ b2) * 2 ^ 8)
      by lia.
    rewrite Z.mod_add by lia. apply Z.mod_small. lia.
Qed.

Lemma take4_PutUint32 (v : Z) (rest : list byte) :
  take 4 (BigEndian_PutUint32 v ++ rest) = BigEndian_PutUint32 v.
Proof. reflexivity. Qed.

(** X7: the server parses what the client encodes: a payload built as
    length, address, port, followed by any further bytes, parses to the
    decimal text of that port, whatever the address bytes are. *)
Theorem X7_parse_of_encoded (addr extra : list byte) (port : Z) :
  Z.of_nat (length addr) < 2 ^ 32 →
  0 ≤ port < 2 ^ 32 →
  parseForwardPort (forward_payload addr port ++ extra)
  = Some (Sprintf_d port).
Proof.
  intros Hlen Hport.
  assert (¬ malformed (forward_payload addr port ++ extra) ∧
          port_field (forward_payload addr port ++ extra) = port) as [Hok Hp].
  { unfold malformed, port_field, addr_len, forward_payload.
    rewrite <- !app_assoc, take4_PutUint32, Uint32_PutUint32.
    rewrite (Z.mod_small (Z.of_nat (length addr))) by lia.
    split.
    - rewrite !List.length_app. simpl. lia.
    - rewrite (app_assoc (BigEndian_PutUint32 _) addr).
      rewrite drop_app_length' by (rewrite List.length_app; simpl; lia).
      rewrite take4_PutUint32, Uint32_PutUint32. apply Z.mod_small. lia. }
  rewrite (parse_well_formed _ Hok). by rewrite Hp.
Qed.

(** X8: every payload the parser accepts has the shape the client sends:
    the four bytes of the address length, that many address bytes, the
    four bytes of the port the parser returns, and then any bytes. *)
Theorem X8_accepted_payload_shape (payload : list byte) :
  ¬ malformed payload →
  ∃ addr extra,
    payload = (forward_payload addr (port_field payload) ++ extra)%list ∧
    Z.of_nat (length addr) = addr_len payload ∧
    0 ≤ port_field payload < 2 ^ 32.
Proof.
  unfold malformed. intros Hok.
  assert (∀ l : list byte, (4 ≤ length l)%nat →
            ∃ b0 b1 b2 b3, take 4 l = [b0; b1; b2; b3]) as Hfour.
  { intros [|b0 [|b1 [|b2 [|b3 l]]]] Hl; simpl in Hl; try lia.
    by exists b0, b1, b2, b3. }
  assert (∀ b0 b1 b2 b3 : byte, 0 ≤ BigEndian_Uint32 [b0; b1; b2; b3] < 2 ^ 32)
    as Hrange.
  { intros b0 b1 b2 b3. rewrite Uint32_value.
    pose proof (byteZ_range b0). pose proof (byteZ_range b1).
    pose proof (byteZ_range b2). pose proof (byteZ_range b3). lia. }
  destruct (Hfour payload) as (b0 & b1 & b2 & b3 & Hhead); [lia|].
  assert (0 ≤ addr_len payload < 2 ^ 32) as HL
    by (unfold addr_len; rewrite Hhead; apply Hrange).
  set (L := Z.to_nat (addr_len payload)).
  destruct (Hfour (drop (4 + L) payload)) as (c0 & c1 & c2 & c3 & Hport).
  { rewrite length_drop. lia. }
  exists (take L (drop 4 payload)), (drop 4 (drop (4 + L) payload)).
  assert (port_field payload = BigEndian_Uint32 [c0; c1; c2; c3]) as Hpf.
  { unfold port_field. replace (Z.to_nat (4 + addr_len payload))
      with (4 + L)%nat by lia. by rewrite Hport. }
  split; [|split].
  - unfold forward_payload. rewrite length_take_le by (rewrite length_drop; lia).
    replace (Z.of_nat L) with (addr_len payload) by lia.
    unfold addr_len at 1. rewrite Hhead, PutUint32_Uint32, <- Hhead.
    rewrite Hpf, PutUint32_Uint32, <- Hport.
    rewrite <- !app_assoc, take_drop.
    rewrite <- (drop_drop payload L 4), take_drop. by rewrite take_drop.
  - rewrite length_take_le by (rewrite length_drop; lia). lia.
  - rewrite Hpf. apply Hrange.
Qed.

(** ** The client against the server *)

Lemma parse_connect_payload : parseForwardPort connect_payload = Some "0".
Proof. reflexivity. Qed.

Lemma length_PutUint32 (v : Z) : length (BigEndian_PutUint32 v) = 4%nat.
Proof. reflexivity. Qed.

(** X9: the client and the server agree on the port.  The server answers
    the request [Connect] sends by asking for a listener on [127.0.0.1:0];
    when it accepts, [Connect] returns the port of that listener (as a
    [uint32]), and when it refuses, [Connect] fails with the rejection. *)
Theorem X9_Connect_returns_bound_port (c : ClientConfig) (key : list byte)
    username os now (w : World URL) :
  let out := handle_request url_Parse username
               (forward_request connect_payload) os now w in
  let env := {| key_file := Some key; key_parses := true;
                dial_succeeds := true; request_result := reply_of out.2 |} in
  head out.2 = Some (net_Listen "tcp" "127.0.0.1:0") ∧
  (accepted out →
   ∃ P, os = Listening P ∧ (Connect c env).1 = inr (wrap32 P)) ∧
  (¬ accepted out → (Connect c env).1 = inl ErrRejected).
Proof.
  intros out env. subst env out. rewrite handle_forward_eq.
  unfold handle_forward. rewrite parse_connect_payload.
  destruct os as [|P].
  { split; [done|]. split; [|done].
    intros H. exfalso. revert H. apply no_true_reply.
    repeat constructor; discriminate. }
  destruct (AddRoute url_Parse now _ _ _) as [m'|].
  - split; [done|]. split; [|intros H; destruct H].
    + intros _. exists P. split; [done|].
      unfold Connect, reply_of. simpl.
      f_equal. change (BigEndian_Uint32 (BigEndian_PutUint32 (wrap32 P))
                        = wrap32 P).
      rewrite Uint32_PutUint32. unfold wrap32. apply Z.mod_mod. lia.
    + exists (BigEndian_PutUint32 (wrap32 P)). simpl.
      apply elem_of_cons. right. apply elem_of_cons. by left.
  - split; [done|]. split; [|done].
    intros H. exfalso. revert H. apply no_true_reply.
    repeat constructor; discriminate.
Qed.

(** A call that is none of the calls of an explicit list is not in it; a
    call of the list is in it. *)
Ltac absent_call :=
  let H := fresh "H" in
  intros H;
  repeat (apply elem_of_cons in H as [H|H]; [discriminate|]);
  by apply elem_of_nil in H.

Ltac present_call :=
  repeat (first [ apply list_elem_of_here
                | apply list_elem_of_further ]).

(** X10: [Connect] succeeds exactly when the key file is read and parsed,
    the dial succeeds and the request gets a positive reply of exactly four
    bytes; it closes the connection exactly when it fails after the dial;
    and it starts the monitor exactly when it succeeds. *)
Theorem X10_Connect_closes_on_failure (c : ClientConfig) (env : ClientEnv) :
  let r := (Connect c env).1 in
  let calls := (Connect c env).2 in
  ((∃ port, r = inr port) ↔
   is_Some (key_file env) ∧ key_parses env = true ∧
   dial_succeeds env = true ∧
   ∃ reply, request_result env = Some (true, reply) ∧ length reply = 4%nat) ∧
  (conn_Close ∈ calls ↔
   (∃ e, r = inl e) ∧ is_Some (key_file env) ∧ key_parses env = true ∧
   dial_succeeds env = true) ∧
  (go_monitorConnection ∈ calls ↔ ∃ port, r = inr port).
Proof.
  intros r calls. subst r calls. unfold Connect.
  destruct env as [[key|] parses dials result]; simpl.
  2:{ split; [|split].
      - split; [by intros [? ?]|]. by intros [[? ?] _].
      - split; [absent_call|]. by intros (_ & [? ?] & _).
      - split; [absent_call|by intros [? ?]]. }
  destruct parses; simpl.
  2:{ split; [|split].
      - split; [by intros [? ?]|]. by intros (_ & ? & _).
      - split; [absent_call|]. by intros (_ & _ & ? & _).
      - split; [absent_call|by intros [? ?]]. }
  destruct dials; simpl.
  2:{ split; [|split].
      - split; [by intros [? ?]|]. by intros (_ & _ & ? & _).
      - split; [absent_call|]. by intros (_ & _ & _ & ?).
      - split; [absent_call|by intros [? ?]]. }
  destruct result as [[[] reply]|]; simpl.
  - destruct (length reply =? 4)%nat eqn:Hlen; simpl.
    + apply Nat.eqb_eq in Hlen. split; [|split].
      * split; [|by eexists]. intros _. repeat split; eauto.
      * split; [absent_call|]. by intros ([? ?] & _).
      * split; [by eexists|]. intros _. present_call.
    + apply Nat.eqb_neq in Hlen. split; [|split].
      * split; [by intros [? ?]|].
        intros (_ & _ & _ & reply' & [= <-] & ?). done.
      * split; [|intros _; present_call].
        intros _. repeat split; eauto.
      * split; [absent_call|by intros [? ?]].
  - split; [|split].
    + split; [by intros [? ?]|]. by intros (_ & _ & _ & reply' & [= ] & _).
    + split; [|intros _; present_call].
      intros _. repeat split; eauto.
    + split; [absent_call|by intros [? ?]].
  - split; [|split].
    + split; [by intros [? ?]|]. by intros (_ & _ & _ & reply' & [= ] & _).
    + split; [|intros _; present_call].
      intros _. repeat split; eauto.
    + split; [absent_call|by intros [? ?]].
Qed.

(** ** The clean-up, whatever the order of the visits *)

Lemma cleanup_visit_comm (username : string) (s : SSHServer URL)
    (x y : string * string) :
  cleanup_visit username (cleanup_visit username s x) y
  = cleanup_visit username (cleanup_visit username s y) x.
Proof.
  unfold cleanup_visit.
  destruct (HasPrefix x.1 _), (HasPrefix y.1 _); simpl; try done.
  f_equal; [apply RemoveRoute_comm | apply delete_delete].
Qed.

Lemma cleanup_fold_perm (username : string) (l l' : list (string * string)) :
  l ≡ₚ l' →
  ∀ s : SSHServer URL,
    foldl (cleanup_visit username) s l = foldl (cleanup_visit username) s l'.
Proof.
  induction 1 as [|x l l' _ IH|x y l|l1 l2 l3 _ IH1 _ IH2]; intros s; simpl.
  - done.
  - apply IH.
  - by rewrite cleanup_visit_comm.
  - by rewrite IH1.
Qed.

(** X11: the result of the clean-up on disconnect does not depend on the
    order in which [Range] hands the entries to the callback. *)
Theorem X11_cleanup_order_irrelevant (username : string) (s : SSHServer URL)
    (visits : list (string * string)) :
  visits ≡ₚ map_to_list (activeTunnelM s) →
  foldl (cleanup_visit username) s visits = cleanup username s.
Proof. intros Hperm. by apply cleanup_fold_perm. Qed.

(** X12: the clean-up for [username] deletes exactly the bookkeeping entries
    whose key starts with [username:] and keeps all the others; it removes
    the route of every host that such an entry names, and leaves the route
    of a host that no such entry names as it was. *)
Theorem X12_cleanup_exact (username : string) (s : SSHServer URL) :
  activeTunnelM (cleanup username s)
  = filter (λ kv : string * string,
              HasPrefix kv.1 (username +:+ ":") = false)
           (activeTunnelM s) ∧
  zone (cleanup username s) = zone s ∧
  ∀ host,
    (∀ k, activeTunnelM s !! k = Some host →
          HasPrefix k (username +:+ ":") = true →
          GetEntry host (manager (cleanup username s)) = None) ∧
    ((∀ k, activeTunnelM s !! k = Some host →
           HasPrefix k (username +:+ ":") = false) →
     GetEntry host (manager (cleanup username s))
     = GetEntry host (manager s)).
Proof.
  split; [|split].
  - apply map_eq. intros k.
    destruct (HasPrefix k (username +:+ ":")) eqn:Hk.
    + rewrite cleanup_no_prefix_left by done. symmetry.
      apply map_lookup_filter_None. right. intros v _. simpl. congruence.
    + unfold cleanup. rewrite cleanup_fold_keep_key by done.
      destruct (activeTunnelM s !! k) as [v|] eqn:E.
      * symmetry. by apply map_lookup_filter_Some.
      * symmetry. apply map_lookup_filter_None. by left.
  - apply cleanup_fold_zone.
  - intros host. split.
    + intros k Hkv Hk. by apply (cleanup_removes username s k host).
    + intros Hnone. apply cleanup_fold_keep_route.
      intros k v Hkv%elem_of_map_to_list Hk ->.
      specialize (Hnone k Hkv). congruence.
Qed.

(** ** Whole sessions *)

(** X13: when [HandleConn] returns for a user with a non-empty name, in any
    state the server can be in, no forward of that user is recorded any
    more and the host of that user has no route, whichever session had
    created them. *)
Theorem X13_HandleConn_leaves_no_forward (zone0 : string) (lr : bool) evs
    (username : string) reqs :
  username ≠ EmptyString →
  let w := run url_Parse (boot URL zone0 lr) evs in
  let w' := HandleConn url_Parse username reqs w in
  (∀ k, HasPrefix k (username +:+ ":") = true →
        activeTunnelM (server w') !! k = None) ∧
  GetEntry (username +:+ "." +:+ zone0) (manager (server w')) = None.
Proof.
  intros Hu w w'.
  assert (w' = run url_Parse (boot URL zone0 lr)
                   (evs ++ session_events 0 username reqs)) as Hrun.
  { unfold w'. rewrite (HandleConn_run url_Parse 0 _ _ _ Hu).
    unfold run, w. by rewrite foldl_app. }
  assert (∀ k, HasPrefix k (username +:+ ":") = true →
               activeTunnelM (server w') !! k = None) as Hkeys.
  { intros k Hk. unfold w', HandleConn.
    apply String.eqb_neq in Hu. rewrite Hu.
    by apply cleanup_no_prefix_left. }
  split; [exact Hkeys|].
  destruct (GetEntry _ (manager (server w'))) as [e|] eqn:He; [|done].
  exfalso. rewrite Hrun in He.
  destruct (run_routes_recorded url_Parse zone0 lr _ _ (mk_is_Some _ _ He))
    as [k Hk].
  pose proof (run_bookkeeping_ok url_Parse zone0 lr
                (evs ++ session_events 0 username reqs)) as Hinv.
  destruct (Hinv k _ Hk) as (x & p & -> & Hx).
  assert (zone (server (run url_Parse (boot URL zone0 lr)
                  (evs ++ session_events 0 username reqs))) = zone0) as Hz.
  { apply (run_invariant url_Parse (λ w, zone (server w) = zone0));
      [|done]. intros w0 ev <-. apply step_zone. }
  unfold user_host in Hx. rewrite Hz in Hx. apply app_inj_r in Hx as <-.
  rewrite <- Hrun in Hk.
  rewrite (Hkeys _ (own_key_prefix username p)) in Hk. done.
Qed.

(** X15: no request and no disconnect closes a listener that is open: after
    any event whose listener, if it gets one, is on a port not yet in use,
    every port that held a listener still holds it. *)
Theorem X15_listeners_never_closed (w : World URL) (ev : Event) :
  admissible (listening (net w)) ev →
  listening (net w) ⊆ listening (net (step url_Parse w ev)).
Proof.
  destruct ev as [sid u req os now|sid u]; cbn [step]; [|done].
  intros Hadm. unfold handle_request.
  destruct (String.eqb _ "tcpip-forward").
  - unfold handle_forward. destruct (parseForwardPort _); [|done].
    destruct os as [|P]; [done|]. simpl in Hadm.
    destruct (AddRoute _ _ _ _ _); simpl.
    + apply union_subseteq_l.
    + intros x Hx. apply elem_of_difference. split.
      * by apply elem_of_union_l.
      * intros ->%elem_of_singleton. done.
  - destruct (String.eqb _ _); [|done]. by rewrite handle_cancel_net.
Qed.

(** ** From a forward to the front door *)

Lemma IndexByte_app_found (s rest : string) (c : ascii) :
  IndexByte s c = -1 →
  IndexByte (s +:+ String c rest) c = Z.of_nat (String.length s).
Proof.
  induction s as [|a s IH]; intros Hs.
  - simpl. by rewrite Ascii.eqb_refl.
  - apply IndexByte_cons_none in Hs as [Hac Hs].
    change (String a s +:+ String c rest) with (String a (s +:+ String c rest)).
    cbn [IndexByte String.length]. rewrite IH by done.
    apply Ascii.eqb_neq in Hac. rewrite Hac.
    destruct (Z.of_nat (String.length s) <? 0) eqn:E; lia.
Qed.

Lemma substring_app_l (s t : string) :
  String.substring 0 (String.length s) (s +:+ t) = s.
Proof.
  induction s as [|a s IH]; simpl; [by destruct t|]. by rewrite IH.
Qed.

Lemma cut_at_absent (c : ascii) (s : string) :
  IndexByte s c = -1 → cut_at c s = s.
Proof. unfold cut_at. by intros ->. Qed.

Lemma cut_at_app (c : ascii) (s rest : string) :
  IndexByte s c = -1 → cut_at c (s +:+ String c rest) = s.
Proof.
  intros Hs. unfold cut_at. rewrite IndexByte_app_found by done.
  assert ((0 <=? Z.of_nat (String.length s)) = true) as ->
    by (apply Z.leb_le; lia).
  rewrite Nat2Z.id. apply substring_app_l.
Qed.

Lemma user_host_no_colon (username : string) (s : SSHServer URL) :
  IndexByte username ":" = -1 → IndexByte (zone s) ":" = -1 →
  IndexByte (user_host username s) ":" = -1.
Proof.
  intros Hu Hz. unfold user_host.
  apply (proj2 (IndexByte_app_none url_Parse _ _ _)). split; [done|].
  apply (proj2 (IndexByte_app_none url_Parse _ _ _)). by split.
Qed.

(** X16: a forward reaches the front door.  After an accepted forward of a
    user whose name and zone hold no colon, a request whose Host is
    [username.zone], with or without a port, passes the zone check and is
    handed to the entry that points at the port of the listener; with
    logging on it carries the part of the host before its first dot as
    [X-Tunnel-User], which is the user name when that holds no dot. *)
Theorem X16_forward_then_request username payload (P : Z) now
    (w : World URL) :
  wf_manager (manager (server w)) →
  IndexByte username ":" = -1 →
  IndexByte (zone (server w)) ":" = -1 →
  let host := user_host username (server w) in
  let out := handle_request url_Parse username (forward_request payload)
                            (Listening P) now w in
  accepted out →
  let m' := manager (server out.1) in
  ∃ e,
    url_Parse ("http://127.0.0.1:" +:+ Sprintf_d P) = Some (TargetURL e) ∧
    (∀ r_Host,
       r_Host = host ∨ (∃ port, r_Host = host +:+ ":" +:+ port) →
       FastProxyHandler m' (zone (server w)) r_Host
       = ([host],
          ServeHTTP e (if mgr_logRequests m'
                       then Some (cut_at "." host) else None))) ∧
    (IndexByte username "." = -1 → cut_at "." host = username).
Proof.
  intros Hwf Hu Hz host out Hacc m'. subst m' out.
  rewrite handle_forward_eq in *.
  destruct (forward_accepted url_Parse _ _ _ _ _ Hacc)
    as (Q & m1 & HQ & Hadd & Hw).
  injection HQ as <-. rewrite Hw. cbn [server manager]. fold host in Hadd.
  destruct (GetEntry_AddRoute_eq url_Parse _ _ _ _ _ Hwf Hadd)
    as (u & Hu1 & He).
  rewrite normalize_loopback in Hu1.
  exists (new_entry now u). split; [done|]. split.
  - intros r_Host Hr.
    assert (IndexByte host ":" = -1) as Hh by by apply user_host_no_colon.
    assert (cut_at ":" r_Host = host) as Hcut.
    { destruct Hr as [->|[port ->]]; [by apply cut_at_absent|].
      by apply cut_at_app. }
    unfold FastProxyHandler. rewrite Hcut.
    assert (HasSuffix host ("." +:+ zone (server w)) = true) as ->.
    { apply HasSuffix_spec. by exists username. }
    rewrite andb_false_r. by rewrite He.
  - intros Hdot. unfold host, user_host. by apply cut_at_app.
Qed.

(** X17: a user name with a colon gets a route nobody can reach.  The
    forward of such a user is accepted and its route installed, but the
    front door, which cuts the Host at its first colon, never looks that
    host up, whatever the request. *)
Theorem X17_colon_user_unreachable username payload (P : Z) now
    (w : World URL) :
  wf_manager (manager (server w)) →
  IndexByte username ":" ≠ -1 →
  let host := user_host username (server w) in
  let out := handle_request url_Parse username (forward_request payload)
                            (Listening P) now w in
  accepted out →
  is_Some (GetEntry host (manager (server out.1))) ∧
  ∀ m zone1 r_Host k,
    k ∈ (FastProxyHandler m zone1 r_Host).1 → k ≠ host.
Proof.
  intros Hwf Hu host out Hacc. subst out.
  rewrite handle_forward_eq in *.
  destruct (forward_accepted url_Parse _ _ _ _ _ Hacc)
    as (Q & m1 & HQ & Hadd & Hw).
  injection HQ as <-. rewrite Hw. cbn [server manager]. fold host in Hadd.
  destruct (GetEntry_AddRoute_eq url_Parse _ _ _ _ _ Hwf Hadd)
    as (u & _ & He).
  split; [by rewrite He|].
  intros m zone1 r_Host k Hk Hkh. rewrite Hkh in Hk. clear k Hkh.
  assert (k_is : cut_at ":" r_Host = host).
  { unfold FastProxyHandler in Hk.
    destruct (negb _ && negb _); simpl in Hk; [by apply elem_of_nil in Hk|].
    destruct (GetEntry _ m); simpl in Hk;
      by apply list_elem_of_singleton in Hk. }
  destruct (cut_at_spec url_Parse ":" r_Host) as [Hnone _].
  rewrite k_is in Hnone. unfold host, user_host in Hnone.
  apply (proj1 (IndexByte_app_none url_Parse _ _ _)) in Hnone as [Hnone _].
  done.
Qed.

(** ** The configuration *)

Lemma getenvOrDefault_nonempty (env : gmap string string) (key def : string) :
  def ≠ EmptyString → getenvOrDefault env key def ≠ EmptyString.
Proof.
  intros Hdef. unfold getenvOrDefault.
  destruct (String.eqb_spec (Getenv env key) EmptyString) as [->|Hne];
    simpl; done.
Qed.

(** X20: [Load] fails exactly when [AUTHORIZED_KEYS_DATA] is unset or
    empty.  A loaded configuration never has an empty zone or listen
    address, since an empty value counts as unset; so the front door, which
    is built with that zone, always checks it: a request whose host does
    not end in ["." + Zone] gets 400 whatever the table holds.  Logging is
    off only when [LOG_REQUESTS] lower-cases to [false]. *)
Theorem X20_Load_exact (ToLower : string → string)
    (env : gmap string string) :
  (Load ToLower env = None ↔ Getenv env "AUTHORIZED_KEYS_DATA" = EmptyString) ∧
  (∀ cfg, Load ToLower env = Some cfg →
     Zone cfg ≠ EmptyString ∧ SSHListen cfg ≠ EmptyString ∧
     HTTPListen cfg ≠ EmptyString ∧
     AuthorizedKeys cfg = Getenv env "AUTHORIZED_KEYS_DATA" ∧
     (LogRequests cfg = false ↔
      ToLower (Getenv env "LOG_REQUESTS") = "false") ∧
     (∀ m r_Host,
        (∀ p, cut_at ":" r_Host ≠ p +:+ "." +:+ Zone cfg) →
        FastProxyHandler m (Zone cfg) r_Host
        = ([], http_Error URL "invalid host" 400))).
Proof.
  unfold Load. cbn [AuthorizedKeys].
  destruct (String.eqb_spec (Getenv env "AUTHORIZED_KEYS_DATA") EmptyString)
    as [Hempty|Hset].
  { split; [done|]. intros cfg [=]. }
  split; [done|]. intros cfg [= <-]. cbn [Zone SSHListen HTTPListen
    AuthorizedKeys LogRequests].
  assert (getenvOrDefault env "ZONE" "example.com" ≠ EmptyString) as Hz
    by by apply getenvOrDefault_nonempty.
  split; [done|].
  split; [by apply getenvOrDefault_nonempty|].
  split; [by apply getenvOrDefault_nonempty|].
  split; [done|]. split.
  - rewrite negb_false_iff. apply String.eqb_eq.
  - intros m r_Host Hsuf. unfold FastProxyHandler.
    apply String.eqb_neq in Hz. rewrite Hz.
    destruct (HasSuffix _ _) eqn:E; [|done].
    apply HasSuffix_spec in E as [p Hp].
    by destruct (Hsuf p).
Qed.

End MoreProperties.

(** ** Authorized keys *)

Section Keys.

Context {PublicKey : Type}.
Context (ParseAuthorizedKey : string → option PublicKey).
Context (MarshalAuthorizedKey : PublicKey → string).
Context (TrimSpace : string → string).

Local Abbreviation load :=
  (load_keys ParseAuthorizedKey MarshalAuthorizedKey TrimSpace).
Local Abbreviation is_key_line := (key_line TrimSpace).

Lemma skipped_line (raw : string) :
  (String.eqb (TrimSpace raw) EmptyString || HasPrefix (TrimSpace raw) "#")
  = false ↔ is_key_line raw.
Proof.
  unfold key_line. rewrite orb_false_iff, String.eqb_neq. tauto.
Qed.

(** The loop fails exactly on a key line that does not parse. *)
Lemma load_keys_None (lines : list string) (out0 : gmap string PublicKey) :
  load lines out0 = None ↔
  ∃ raw, raw ∈ lines ∧ is_key_line raw ∧
         ParseAuthorizedKey (TrimSpace raw) = None.
Proof.
  revert out0. induction lines as [|raw lines IH]; intros out0; simpl.
  { split; [done|]. intros (raw & Hin & _). by apply elem_of_nil in Hin. }
  destruct (String.eqb _ _ || HasPrefix _ _) eqn:Hskip.
  - rewrite IH. split; intros (r & Hin & Hk & Hp).
    + exists r. split; [by right|done].
    + apply elem_of_cons in Hin as [->|Hin]; [|by exists r].
      apply skipped_line in Hk. congruence.
  - apply skipped_line in Hskip.
    destruct (ParseAuthorizedKey (TrimSpace raw)) as [pub|] eqn:Hparse.
    + rewrite IH. split; intros (r & Hin & Hk & Hp).
      * exists r. split; [by right|done].
      * apply elem_of_cons in Hin as [->|Hin]; [congruence|by exists r].
    + split; [|done]. intros _. exists raw. split; [by left|done].
Qed.

(** What the loop returns holds a key for every key line, and holds
    nothing but the map it started from and the keys of the key lines,
    each under its own text. *)
Lemma load_keys_Some (lines : list string) (out0 out : gmap string PublicKey) :
  load lines out0 = Some out →
  (∀ k, is_Some (out0 !! k) → is_Some (out !! k)) ∧
  (∀ raw, raw ∈ lines → is_key_line raw →
     ∃ pub, ParseAuthorizedKey (TrimSpace raw) = Some pub ∧
            is_Some (out !! MarshalAuthorizedKey pub)) ∧
  (∀ k pub, out !! k = Some pub →
     out0 !! k = Some pub ∨
     (MarshalAuthorizedKey pub = k ∧
      ∃ raw, raw ∈ lines ∧ is_key_line raw ∧
             ParseAuthorizedKey (TrimSpace raw) = Some pub)).
Proof.
  revert out0. induction lines as [|raw lines IH]; intros out0; simpl.
  { intros [= <-]. split; [done|]. split; [|by left].
    intros raw Hin. by apply elem_of_nil in Hin. }
  destruct (String.eqb _ _ || HasPrefix _ _) eqn:Hskip.
  - intros (Hkeep & Hall & Honly)%IH. split; [done|]. split.
    + intros r [->|Hin]%elem_of_cons Hk; [|by apply Hall].
      apply skipped_line in Hk. congruence.
    + intros k pub [?|(Hm & r & Hin & Hk & Hp)]%Honly; [by left|].
      right. split; [done|]. exists r. split; [by right|done].
  - apply skipped_line in Hskip.
    destruct (ParseAuthorizedKey (TrimSpace raw)) as [pub0|] eqn:Hparse;
      [|done].
    intros (Hkeep & Hall & Honly)%IH. split; [|split].
    + intros k Hk. apply Hkeep.
      destruct (decide (MarshalAuthorizedKey pub0 = k)) as [<-|Hne].
      * rewrite lookup_insert_eq. by eexists.
      * by rewrite lookup_insert_ne.
    + intros r [->|Hin]%elem_of_cons Hk; [|by apply Hall].
      exists pub0. split; [done|]. apply Hkeep.
      rewrite lookup_insert_eq. by eexists.
    + intros k pub [Hins|(Hm & r & Hin & Hk & Hp)]%Honly.
      * apply lookup_insert_Some in Hins as [[<- <-]|[_ ?]]; [|by left].
        right. split; [done|]. exists raw. split; [by left|done].
      * right. split; [done|]. exists r. split; [by right|done].
Qed.

(** What a map that [LoadAuthorizedKeys] returned holds. *)
Lemma loaded_keys (lines : list string) (scan_failed : bool)
    (keys : gmap string PublicKey) :
  LoadAuthorizedKeys ParseAuthorizedKey MarshalAuthorizedKey TrimSpace
                     lines scan_failed = inr keys →
  scan_failed = false ∧ keys ≠ ∅ ∧
  (∀ raw, raw ∈ lines → is_key_line raw →
     ∃ pub, ParseAuthorizedKey (TrimSpace raw) = Some pub ∧
            is_Some (keys !! MarshalAuthorizedKey pub)) ∧
  (∀ k pub, keys !! k = Some pub →
     MarshalAuthorizedKey pub = k ∧
     ∃ raw, raw ∈ lines ∧ is_key_line raw ∧
            ParseAuthorizedKey (TrimSpace raw) = Some pub).
Proof.
  unfold LoadAuthorizedKeys.
  destruct (load lines ∅) as [out|] eqn:Hload; [|done].
  intros Hres. destruct scan_failed; [done|].
  destruct (size out =? 0)%nat eqn:Hsize; [done|].
  injection Hres as <-.
  apply load_keys_Some in Hload as (_ & Hall & Honly).
  split; [done|]. split.
  { apply Nat.eqb_neq in Hsize. by apply map_size_non_empty_iff. }
  split; [done|].
  intros k pub [Hempty|?]%Honly; [|done].
  by rewrite lookup_empty in Hempty.
Qed.

(** X18: [LoadAuthorizedKeys] fails with the parse error exactly when some
    line that is neither blank nor a comment does not parse, whatever the
    other lines and the scanner say.  When it succeeds the map is not
    empty, every such line has its key in the map, and every entry of the
    map is the key of such a line, filed under the text
    [MarshalAuthorizedKey] gives it. *)
Theorem X18_LoadAuthorizedKeys_exact (lines : list string)
    (scan_failed : bool) :
  let result := LoadAuthorizedKeys ParseAuthorizedKey MarshalAuthorizedKey
                                   TrimSpace lines scan_failed in
  (result = inl ErrParseKeyLine ↔
   ∃ raw, raw ∈ lines ∧ is_key_line raw ∧
          ParseAuthorizedKey (TrimSpace raw) = None) ∧
  (∀ keys, result = inr keys →
     scan_failed = false ∧ keys ≠ ∅ ∧
     (∀ raw, raw ∈ lines → is_key_line raw →
        ∃ pub, ParseAuthorizedKey (TrimSpace raw) = Some pub ∧
               is_Some (keys !! MarshalAuthorizedKey pub)) ∧
     (∀ k pub, keys !! k = Some pub →
        MarshalAuthorizedKey pub = k ∧
        ∃ raw, raw ∈ lines ∧ is_key_line raw ∧
               ParseAuthorizedKey (TrimSpace raw) = Some pub)).
Proof.
  intros result. split; [|apply loaded_keys].
  subst result. unfold LoadAuthorizedKeys.
  destruct (load lines ∅) as [out|] eqn:Hload.
  - split.
    + destruct scan_failed; [done|]. by destruct (size out =? 0)%nat.
    + intros H%(load_keys_None lines ∅). congruence.
  - split; [|done]. intros _. by apply (load_keys_None lines ∅).
Qed.

(** X19: with the keys [LoadAuthorizedKeys] returned, the callback admits a
    key exactly when its marshalled text is that of the key of some line
    of the file, and it does so under whatever user name the client
    presents: that name is what [HandleConn] then reads back. *)
Theorem X19_PublicKeyCallback_any_user (lines : list string)
    (scan_failed : bool) (keys : gmap string PublicKey) (user : string)
    (key : PublicKey) :
  LoadAuthorizedKeys ParseAuthorizedKey MarshalAuthorizedKey TrimSpace
                     lines scan_failed = inr keys →
  let granted := PublicKeyCallback MarshalAuthorizedKey keys user key in
  (is_Some granted ↔
   ∃ raw pub, raw ∈ lines ∧ is_key_line raw ∧
              ParseAuthorizedKey (TrimSpace raw) = Some pub ∧
              MarshalAuthorizedKey pub = MarshalAuthorizedKey key) ∧
  (is_Some granted → session_username granted = user).
Proof.
  intros Hload granted. subst granted. unfold PublicKeyCallback.
  destruct (loaded_keys lines scan_failed keys Hload)
    as (_ & _ & Hall & Honly).
  destruct (keys !! MarshalAuthorizedKey key) as [pub|] eqn:Hk.
  - split.
    + split; [|by eexists]. intros _.
      destruct (Honly _ _ Hk) as (Hm & raw & Hin & Hline & Hp).
      by exists raw, pub.
    + intros _. simpl. by rewrite lookup_singleton_eq.
  - split; [|by intros [? ?]]. split; [by intros [? ?]|].
    intros (raw & pub & Hin & Hline & Hp & Hm).
    destruct (Hall raw Hin Hline) as (pub' & Hp' & [x Hx]).
    congruence.
Qed.

End Keys.

(** * The model on concrete inputs *)

Lemma sample_payload_ok (port : Z) :
  0 ≤ port < 2 ^ 32 →
  ¬ malformed (sample_payload port) ∧ port_field (sample_payload port) = port.
Proof.
  intros Hport. split.
  - intros [H|H]; vm_compute in H; discriminate.
  - unfold port_field, sample_payload, forward_payload.
    change (BigEndian_Uint32 (BigEndian_PutUint32 port) = port).
    rewrite Uint32_PutUint32. apply Z.mod_small. lia.
Qed.

Lemma C3_lookup_after_install_witness :
  let m := sample_mgr in
  let m' := default m (AddRoute sample_Parse 7 "alice.example.test"
                                "127.0.0.1:8080" m) in
  let ops := [OpAdd 8 "bob.example.test" "https://10.0.0.1"] in
  let ops' := [OpRemove "bob.example.test"] in
  let m1 := foldl (apply_op sample_Parse) m' ops in
  let m2 := foldl (apply_op sample_Parse)
                  (RemoveRoute "alice.example.test" m1) ops' in
  (∃ e, GetEntry "alice.example.test" m1 = Some e ∧
        sample_Parse (normalize "127.0.0.1:8080") = Some (TargetURL e)) ∧
  ((∃ r, "127.0.0.1:8080" = "http://" +:+ r) ∨
   (∃ r, "127.0.0.1:8080" = "https://" +:+ r) →
   normalize "127.0.0.1:8080" = "127.0.0.1:8080") ∧
  ((∀ r, "127.0.0.1:8080" ≠ "http://" +:+ r) ∧
   (∀ r, "127.0.0.1:8080" ≠ "https://" +:+ r) →
   normalize "127.0.0.1:8080" = "http://" +:+ "127.0.0.1:8080") ∧
  GetEntry "alice.example.test" m2 = None.
Proof.
  apply (C3_lookup_after_install sample_Parse 7 "alice.example.test"
           "127.0.0.1:8080" sample_mgr).
  - reflexivity.
  - vm_compute. reflexivity.
  - repeat constructor; discriminate.
  - repeat constructor; discriminate.
Defined.

Lemma C6_malformed_payload_witness :
  let req := {| req_Type := "tcpip-forward";
                req_Payload := [x00; x00; x00; x07; x30; x2e; x30] |} in
  malformed (req_Payload req) ∧
  handle_request sample_Parse "alice" req (Listening 40000) 7 sample_world
  = (sample_world, [Reply false []]).
Proof.
  assert (malformed [x00; x00; x00; x07; x30; x2e; x30]) as Hbad
    by (right; reflexivity).
  split; [exact Hbad|].
  apply (C6_malformed_payload sample_Parse "alice"
           {| req_Type := "tcpip-forward";
              req_Payload := [x00; x00; x00; x07; x30; x2e; x30] |}).
  - left. reflexivity.
  - exact Hbad.
Defined.

Lemma C7_idempotent_cancel_witness :
  handle_request sample_Parse "alice" (cancel_request (sample_payload 8080))
                 ListenError 7 sample_world
  = (sample_world, [Reply true []]).
Proof.
  apply (C7_idempotent_cancel sample_Parse "alice" (sample_payload 8080)).
  - intros [H|H]; vm_compute in H; discriminate.
  - apply lookup_empty.
Defined.

Lemma C4_tcpip_forward_witness :
  let w := sample_world in
  let payload := sample_payload 0 in
  let s := server w in
  let host := user_host "alice" s in
  let listenAddr := "127.0.0.1:" +:+ Sprintf_d (port_field payload) in
  let out := handle_request sample_Parse "alice" (forward_request payload)
                            (Listening 40000) 7 w in
  let s' := server out.1 in
  match AddRoute sample_Parse 7 host ("127.0.0.1:" +:+ Sprintf_d 40000)
                 (manager s) with
  | Some m' =>
      manager s' = m' ∧
      (∃ e, GetEntry host (manager s') = Some e ∧
            sample_Parse ("http://127.0.0.1:" +:+ Sprintf_d 40000)
            = Some (TargetURL e)) ∧
      activeTunnelM s' =
        <[tunnel_key "alice" 40000 := host]> (activeTunnelM s) ∧
      listening (net out.1) = listening (net w) ∪ {[40000]} ∧
      ∃ b0 b1 b2 b3,
        out.2 = [net_Listen "tcp" listenAddr; Reply true [b0; b1; b2; b3];
                 go_acceptor 40000 "localhost" "3000"] ∧
        byteZ b0 * 2 ^ 24 + byteZ b1 * 2 ^ 16 + byteZ b2 * 2 ^ 8 + byteZ b3
        = 40000
  | None =>
      s' = s ∧
      (40000 ∉ listening (net out.1)) ∧
      out.2 = [net_Listen "tcp" listenAddr; Listener_Close 40000;
               Reply false []]
  end.
Proof.
  apply (C4_tcpip_forward sample_Parse "alice" (sample_payload 0) 40000 7
           sample_world).
  - intros [H|H]; vm_compute in H; discriminate.
  - lia.
  - reflexivity.
Defined.

Lemma C10_one_route_per_user_witness :
  let w := sample_world in
  let host := user_host "alice" (server w) in
  let out1 := handle_request sample_Parse "alice"
                (forward_request (sample_payload 0)) (Listening 40000) 7 w in
  let out2 := handle_request sample_Parse "alice"
                (forward_request (sample_payload 0)) (Listening 40001) 8
                out1.1 in
  let s2 := server out2.1 in
  activeTunnelM s2 !! tunnel_key "alice" 40000 = Some host ∧
  activeTunnelM s2 !! tunnel_key "alice" 40001 = Some host ∧
  (∃ e1 e2,
     GetEntry host (manager (server out1.1)) = Some e1 ∧
     sample_Parse ("http://127.0.0.1:" +:+ Sprintf_d 40000)
     = Some (TargetURL e1) ∧
     CreatedAt e1 = 7 ∧
     GetEntry host (manager s2) = Some e2 ∧
     sample_Parse ("http://127.0.0.1:" +:+ Sprintf_d 40001)
     = Some (TargetURL e2) ∧
     CreatedAt e2 = 8) ∧
  ∀ c os now, ¬ malformed c →
    let s3 := server (handle_request sample_Parse "alice" (cancel_request c)
                                     os now out2.1).1 in
    (port_field c = 40000 →
     GetEntry host (manager s3) = None ∧
     activeTunnelM s3 !! tunnel_key "alice" 40000 = None ∧
     activeTunnelM s3 !! tunnel_key "alice" 40001 = Some host) ∧
    (port_field c = 40001 →
     GetEntry host (manager s3) = None ∧
     activeTunnelM s3 !! tunnel_key "alice" 40001 = None ∧
     activeTunnelM s3 !! tunnel_key "alice" 40000 = Some host).
Proof.
  apply (C10_one_route_per_user sample_Parse "alice" (sample_payload 0)
           (sample_payload 0) 40000 40001 7 8 sample_world).
  - reflexivity.
  - intros [H|H]; vm_compute in H; discriminate.
  - intros [H|H]; vm_compute in H; discriminate.
  - discriminate.
  - exists (BigEndian_PutUint32 40000). vm_compute.
    apply elem_of_cons. right. apply elem_of_cons. by left.
  - exists (BigEndian_PutUint32 40001). vm_compute.
    apply elem_of_cons. right. apply elem_of_cons. by left.
Defined.

Lemma C8_other_users_untouched_witness :
  let w := run sample_Parse (boot string "example.test" false)
               [alice_forward; bob_forward] in
  let w' := step sample_Parse w (EvDisconnect 1 "alice") in
  activeTunnelM (server w') !! tunnel_key "bob" 40001
  = activeTunnelM (server w) !! tunnel_key "bob" 40001 ∧
  GetEntry (user_host "bob" (server w)) (manager (server w'))
  = GetEntry (user_host "bob" (server w)) (manager (server w)).
Proof.
  apply (C8_other_users_untouched sample_Parse "example.test" false
           [alice_forward; bob_forward] (EvDisconnect 1 "alice")
           "alice" "bob" 40001).
  - discriminate.
  - reflexivity.
  - left. by exists 1%nat.
Defined.

(** C8 as stated fails: session 1 of [alice] obtains a forward; session 2,
    a second connection authenticated as [alice], then ends (or sends a
    cancel for the port); the entry and the route that session 1 created
    are gone while session 1 is still running. *)
Lemma C8_counterexample :
  let w1 := run sample_Parse sample_world [alice_forward] in
  let ended := step sample_Parse w1 (EvDisconnect 2 "alice") in
  let cancelled :=
    step sample_Parse w1
         (EvRequest 2 "alice" (cancel_request (sample_payload 40000))
                    ListenError 9) in
  activeTunnelM (server sample_world) !! "alice:40000" = None ∧
  activeTunnelM (server w1) !! "alice:40000" = Some "alice.example.test" ∧
  is_Some (GetEntry "alice.example.test" (manager (server w1))) ∧
  activeTunnelM (server ended) !! "alice:40000" = None ∧
  GetEntry "alice.example.test" (manager (server ended)) = None ∧
  activeTunnelM (server cancelled) !! "alice:40000" = None ∧
  GetEntry "alice.example.test" (manager (server cancelled)) = None.
Proof.
  vm_compute. repeat split; try reflexivity. eexists. reflexivity.
Qed.

Lemma C1_listener_left_open_witness :
  let w := sample_world in
  let host := user_host "alice" (server w) in
  let out := handle_request sample_Parse "alice"
               (forward_request (sample_payload 0)) (Listening 40000) 7 w in
  let cancelled := handle_request sample_Parse "alice"
                     (cancel_request (sample_payload 40000)) ListenError 8
                     out.1 in
  let closed := disconnect "alice" out.1 in
  (GetEntry host (manager (server cancelled.1)) = None ∧
   activeTunnelM (server cancelled.1) !! tunnel_key "alice" 40000 = None ∧
   GetEntry host (manager (server closed)) = None ∧
   activeTunnelM (server closed) !! tunnel_key "alice" 40000 = None) ∧
  (40000 ∈ listening (net cancelled.1) ∧ cancelled.2 = [Reply true []] ∧
   40000 ∈ listening (net closed) ∧
   net cancelled.1 = net out.1 ∧ net closed = net out.1).
Proof.
  apply (C1_listener_left_open sample_Parse "alice" (sample_payload 0)
           (sample_payload 40000) 40000 ListenError 7 8 sample_world).
  - reflexivity.
  - intros [H|H]; vm_compute in H; discriminate.
  - intros [H|H]; vm_compute in H; discriminate.
  - reflexivity.
  - exists (BigEndian_PutUint32 40000). vm_compute.
    apply elem_of_cons. right. apply elem_of_cons. by left.
Defined.

Lemma C2_acceptor_dials_witness :
  let calls := serve_accepted "localhost" "3000" true in
  accept_conn 40000 true (run sample_Parse sample_world [alice_forward])
  = Some calls ∧
  head calls = Some (net_Dial "tcp" "localhost:3000") ∧
  ∀ name data, OpenChannel name data ∉ calls.
Proof.
  assert (accept_conn 40000 true
            (run sample_Parse sample_world [alice_forward])
          = Some (serve_accepted "localhost" "3000" true)) as H
    by (vm_compute; reflexivity).
  split; [exact H|].
  exact (C2_acceptor_dials sample_Parse "example.test" false [alice_forward]
           40000 true _ H).
Defined.

(** The two halves of the no-leak property on one trace: session 1 of
    [alice] obtains a forward and ends.  Every session has ended, the
    bookkeeping is empty and no route is left, and the listener on port
    40000 is still open. *)
Example listener_outlives_sessions :
  let evs := [alice_forward; EvDisconnect 1 "alice"] in
  let w := run sample_Parse sample_world evs in
  all_sessions_ended evs ∧
  activeTunnelM (server w) = ∅ ∧
  GetEntry "alice.example.test" (manager (server w)) = None ∧
  40000 ∈ listening (net w).
Proof.
  assert (all_sessions_ended [alice_forward; EvDisconnect 1 "alice"]) as Hend.
  { intros pre post sid u req os now H.
    destruct pre as [|e1 [|e2 [|e3 pre]]]; simplify_eq/=.
    injection H as <- <- _ _ _. by apply list_elem_of_singleton. }
  split; [exact Hend|].
  destruct (nothing_left_after_sessions sample_Parse "example.test" false
              _ Hend) as [Hmap Hroutes].
  split; [exact Hmap|]. split; [apply Hroutes|].
  vm_compute. reflexivity.
Qed.

(** ** Further properties on concrete inputs *)

Lemma X1_ops_on_other_hosts_commute_witness :
  let o1 := OpAdd 1 "alice.example.test" "127.0.0.1:40000" in
  let o2 := OpRemove "bob.example.test" in
  apply_op sample_Parse (apply_op sample_Parse sample_mgr o1) o2
  = apply_op sample_Parse (apply_op sample_Parse sample_mgr o2) o1.
Proof.
  apply (X1_ops_on_other_hosts_commute sample_Parse sample_mgr
           (OpAdd 1 "alice.example.test" "127.0.0.1:40000")
           (OpRemove "bob.example.test")).
  discriminate.
Defined.

Lemma X3_AddRoute_overwrites_witness :
  let m1 := default sample_mgr
              (AddRoute sample_Parse 1 "alice.example.test" "127.0.0.1:40000"
                        sample_mgr) in
  AddRoute sample_Parse 2 "alice.example.test" "127.0.0.1:40001" m1
  = AddRoute sample_Parse 2 "alice.example.test" "127.0.0.1:40001" sample_mgr.
Proof.
  apply (X3_AddRoute_overwrites sample_Parse 1 2 "alice.example.test"
           "127.0.0.1:40000" "127.0.0.1:40001" sample_mgr).
  vm_compute. reflexivity.
Defined.

Lemma X6_one_byte_apart_other_shard_witness :
  "1"%char ≠ "2"%char ∧
  shardIdx ("alice" +:+ String "1" ".example.test")
  ≠ shardIdx ("alice" +:+ String "2" ".example.test").
Proof.
  assert ("1"%char ≠ "2"%char) as Hne by discriminate.
  split; [exact Hne|].
  exact (X6_one_byte_apart_other_shard "alice" ".example.test" "1" "2" Hne).
Defined.

Lemma X7_parse_of_encoded_witness :
  parseForwardPort
    (forward_payload [x30; x2e; x30; x2e; x30; x2e; x30] 8080 ++ [x01; x02])
  = Some (Sprintf_d 8080).
Proof.
  apply (X7_parse_of_encoded [x30; x2e; x30; x2e; x30; x2e; x30]
           [x01; x02] 8080).
  - simpl. lia.
  - lia.
Defined.

Lemma X8_accepted_payload_shape_witness :
  let payload := (sample_payload 8080 ++ [xff])%list in
  ∃ addr extra,
    payload = (forward_payload addr (port_field payload) ++ extra)%list ∧
    Z.of_nat (length addr) = addr_len payload ∧
    0 ≤ port_field payload < 2 ^ 32.
Proof.
  apply (X8_accepted_payload_shape (sample_payload 8080 ++ [xff])%list).
  intros [H|H]; vm_compute in H; discriminate.
Defined.

Lemma X11_cleanup_order_irrelevant_witness :
  let s := server two_forwards in
  foldl (cleanup_visit "alice") s (reverse (map_to_list (activeTunnelM s)))
  = cleanup "alice" s.
Proof.
  apply (X11_cleanup_order_irrelevant "alice" (server two_forwards)).
  apply reverse_Permutation.
Defined.

Lemma X13_HandleConn_leaves_no_forward_witness :
  let w := run sample_Parse (boot string "example.test" false)
               [alice_forward] in
  let w' := HandleConn sample_Parse "alice" [] w in
  (∀ k, HasPrefix k ("alice" +:+ ":") = true →
        activeTunnelM (server w') !! k = None) ∧
  GetEntry ("alice" +:+ "." +:+ "example.test") (manager (server w')) = None.
Proof.
  apply (X13_HandleConn_leaves_no_forward sample_Parse "example.test" false
           [alice_forward] "alice" []).
  discriminate.
Defined.

Lemma table_empty_after_sessions_witness :
  let evs := [alice_forward; bob_forward; EvDisconnect 3 "bob";
              EvDisconnect 1 "alice"] in
  let w := run sample_Parse (boot string "example.test" false) evs in
  all_sessions_ended evs ∧
  activeTunnelM (server w) = ∅ ∧
  ∀ (i : nat) (s : shard string),
    shards (manager (server w)) !! i = Some s → s = ∅.
Proof.
  assert (all_sessions_ended [alice_forward; bob_forward;
            EvDisconnect 3 "bob"; EvDisconnect 1 "alice"]) as Hend.
  { intros pre post sid u req os now H.
    destruct pre as [|e1 [|e2 [|e3 [|e4 [|e5 pre]]]]]; simplify_eq/=.
    - injection H as <- <- _ _ _.
      apply elem_of_cons. right. apply elem_of_cons. right.
      by apply list_elem_of_singleton.
    - injection H as <- <- _ _ _. apply elem_of_cons. by left. }
  split; [exact Hend|].
  exact (table_empty_after_sessions sample_Parse "example.test" false _ Hend).
Defined.

Lemma X15_listeners_never_closed_witness :
  let w := run sample_Parse sample_world [alice_forward] in
  40000 ∈ listening (net w) ∧
  listening (net w) ⊆ listening (net (step sample_Parse w bob_forward)).
Proof.
  split.
  - vm_compute. reflexivity.
  - apply (X15_listeners_never_closed sample_Parse
             (run sample_Parse sample_world [alice_forward]) bob_forward).
    intros H. vm_compute in H. discriminate.
Defined.

Lemma X16_forward_then_request_witness :
  let w := sample_world in
  let host := user_host "alice" (server w) in
  let out := handle_request sample_Parse "alice"
               (forward_request (sample_payload 0)) (Listening 40000) 7 w in
  let m' := manager (server out.1) in
  ∃ e,
    sample_Parse ("http://127.0.0.1:" +:+ Sprintf_d 40000)
    = Some (TargetURL e) ∧
    (∀ r_Host,
       r_Host = host ∨ (∃ port, r_Host = host +:+ ":" +:+ port) →
       FastProxyHandler m' (zone (server w)) r_Host
       = ([host],
          ServeHTTP e (if mgr_logRequests m'
                       then Some (cut_at "." host) else None))) ∧
    (IndexByte "alice" "." = -1 → cut_at "." host = "alice").
Proof.
  apply (X16_forward_then_request sample_Parse "alice" (sample_payload 0)
           40000 7 sample_world).
  - reflexivity.
  - reflexivity.
  - reflexivity.
  - exists (BigEndian_PutUint32 40000). vm_compute.
    apply elem_of_cons. right. apply elem_of_cons. by left.
Defined.

Lemma X17_colon_user_unreachable_witness :
  let w := sample_world in
  let host := user_host "al:ice" (server w) in
  let out := handle_request sample_Parse "al:ice"
               (forward_request (sample_payload 0)) (Listening 40000) 7 w in
  is_Some (GetEntry host (manager (server out.1))) ∧
  ∀ (m : ShardedRouteManager string) zone1 r_Host k,
    k ∈ (FastProxyHandler m zone1 r_Host).1 → k ≠ host.
Proof.
  apply (X17_colon_user_unreachable sample_Parse "al:ice" (sample_payload 0)
           40000 7 sample_world).
  - reflexivity.
  - discriminate.
  - exists (BigEndian_PutUint32 40000). vm_compute.
    apply elem_of_cons. right. apply elem_of_cons. by left.
Defined.

Lemma X19_PublicKeyCallback_any_user_witness :
  let keys : gmap string string :=
    {[ "ssh-ed25519 AAAAC3Nz alice" := "ssh-ed25519 AAAAC3Nz alice" ]} in
  let granted := PublicKeyCallback (λ k : string, k) keys "mallory"
                                   "ssh-ed25519 AAAAC3Nz alice" in
  LoadAuthorizedKeys sample_ParseKey (λ k : string, k) (λ s, s)
                     sample_key_lines false = inr keys ∧
  (is_Some granted ↔
   ∃ raw pub, raw ∈ sample_key_lines ∧ key_line (λ s, s) raw ∧
              sample_ParseKey raw = Some pub ∧
              pub = "ssh-ed25519 AAAAC3Nz alice") ∧
  (is_Some granted → session_username granted = "mallory").
Proof.
  assert (LoadAuthorizedKeys sample_ParseKey (λ k : string, k) (λ s, s)
            sample_key_lines false
          = inr ({[ "ssh-ed25519 AAAAC3Nz alice"
                    := "ssh-ed25519 AAAAC3Nz alice" ]} : gmap string string))
    as Hload by reflexivity.
  split; [exact Hload|].
  exact (X19_PublicKeyCallback_any_user sample_ParseKey (λ k : string, k)
           (λ s, s) sample_key_lines false _ "mallory"
           "ssh-ed25519 AAAAC3Nz alice" Hload).
Defined.
